(** * clickhouse_connect.datatypes.special: the row-binary and native codecs

    A shallow embedding of [clickhouse_connect/datatypes/special.py] (the
    UUID, FixedString, Nothing, Array, Tuple, Map, AggregateFunction and
    SimpleAggregateFunction column types) and the properties of its
    specification that were checked against it.

    Layout of the development:
    - [Py]        the Python built-ins the module relies on (exceptions,
                  slices, [int.from_bytes]/[int.to_bytes], [hexlify],
                  [struct.unpack_from], [array.array('Q')]);
    - objects     the native values the codecs produce and consume;
    - codecs      one definition per function of the source, under its name;
    - reference   what the specification asks, stated on its own, and the
                  data of the examples;
    - properties  per column type, lemmas first and the statement of the
                  specification last. *)

From Stdlib Require Import ZArith List String Ascii Bool Lia.
From Stdlib Require Import Init.Byte.
Import ListNotations.

Set Warnings "-register-all".
Local Open Scope Z_scope.

(* ================================================================== *)
(** ** Python built-ins                                                 *)
(* ================================================================== *)

Module Py.

(** The exceptions that can leave the module. *)
Inductive exn : Type :=
| TypeError
| ValueError
| OverflowError
| AttributeError
| IndexError
| LookupError
| UnicodeDecodeError
| UnicodeEncodeError
| RecursionError
| StructError                       (* struct.error *)
| DriverError (msg : string)        (* driver.exceptions.DriverError *)
| NotSupportedError (msg : string). (* driver.exceptions.NotSupportedError *)

(** A call either returns or raises. *)
Inductive result (A : Type) : Type :=
| Ok (a : A)
| Raise (e : exn).
Arguments Ok {A} a.
Arguments Raise {A} e.

Definition bind {A B} (r : result A) (k : A -> result B) : result B :=
  match r with
  | Ok a => k a
  | Raise e => Raise e
  end.

(** [bytes] and [bytearray] contents. *)
Definition bytes := list byte.

Definition byte_val (b : byte) : Z := Z.of_N (Byte.to_N b).

Definition byte_of_Z (z : Z) : byte :=
  match Byte.of_N (Z.to_N (z mod 256)) with
  | Some b => b
  | None => x00
  end.

Definition len {A} (l : list A) : Z := Z.of_nat (List.length l).

(** [l[start:stop]]: negative indices count from the end, and indices past
    either end are clamped, so a slice never raises. *)
Definition slice_index (n i : Z) : Z :=
  if i <? 0 then Z.max 0 (i + n) else Z.min i n.

Definition slice {A} (l : list A) (start stop : Z) : list A :=
  let a := slice_index (len l) start in
  let b := slice_index (len l) stop in
  firstn (Z.to_nat (b - a)) (skipn (Z.to_nat a) l).

(** [int.from_bytes(b, 'little')] and [int.from_bytes(b, 'big')]. *)
Fixpoint int_from_bytes_little (b : bytes) : Z :=
  match b with
  | [] => 0
  | x :: b' => byte_val x + 256 * int_from_bytes_little b'
  end.

Definition int_from_bytes_big (b : bytes) : Z :=
  int_from_bytes_little (rev b).

(** The [width] low bytes of [n], least significant first. *)
Fixpoint le_digits (width : nat) (n : Z) : bytes :=
  match width with
  | O => []
  | S k => byte_of_Z n :: le_digits k (n / 256)
  end.

(** [n.to_bytes(width, 'little')] and [n.to_bytes(width, 'big')]:
    OverflowError when [n] is negative or does not fit. *)
Definition int_to_bytes_little (n : Z) (width : nat) : result bytes :=
  if (n <? 0) || (256 ^ Z.of_nat width <=? n) then Raise OverflowError
  else Ok (le_digits width n).

Definition int_to_bytes_big (n : Z) (width : nat) : result bytes :=
  bind (int_to_bytes_little n width) (fun b => Ok (rev b)).

(** [binascii.hexlify]: two lower-case hex digits per byte. *)
Definition hex_digit (d : Z) : ascii :=
  if d <? 10 then ascii_of_nat (Z.to_nat (48 + d))
  else ascii_of_nat (Z.to_nat (87 + d)).

Definition hexlify (b : bytes) : list ascii :=
  flat_map (fun x => [hex_digit (byte_val x / 16); hex_digit (byte_val x mod 16)]) b.

(** [range(n)] as the list of its indices; empty when [n <= 0]. *)
Definition range (n : Z) : list Z :=
  map Z.of_nat (seq 0 (Z.to_nat n)).

(** [struct.unpack_from('<kQ', source, loc)]: [k] little-endian unsigned
    64-bit words.  A negative count is a bad format, a negative offset counts
    from the end, and a buffer too short for the whole format is an error. *)
Definition unpack_from_le_Q (k : Z) (source : bytes) (loc : Z) : result (list Z) :=
  if k <? 0 then Raise StructError
  else
    let off := if loc <? 0 then loc + len source else loc in
    if off <? 0 then Raise StructError
    else if len source - off <? 8 * k then Raise StructError
    else Ok (map (fun i => int_from_bytes_little (slice source (off + 8 * i) (off + 8 * i + 8)))
                 (range k)).

(** Host byte order, [sys.byteorder]. *)
Inductive byteorder : Type := little | big.

Definition int_from_bytes (order : byteorder) (b : bytes) : Z :=
  match order with
  | little => int_from_bytes_little b
  | big => int_from_bytes_big b
  end.

Definition swapped (order : byteorder) : byteorder :=
  match order with little => big | big => little end.

(** Consecutive [w]-byte items of [b]; [b] is cut where it ends. *)
Fixpoint chunks (fuel : nat) (w : nat) (b : bytes) : list bytes :=
  match fuel with
  | O => []
  | S f => firstn w b :: chunks f w (skipn w b)
  end.

(** [a = array.array('Q'); a.frombytes(b)]: the items of [b] read in host
    order; ValueError when [b] is not a whole number of items. *)
Definition array_Q_frombytes (host : byteorder) (b : bytes) : result (list Z) :=
  if len b mod 8 =? 0
  then Ok (map (int_from_bytes host) (chunks (List.length b / 8) 8 b))
  else Raise ValueError.

(** [a.byteswap()] on one 64-bit item. *)
Definition byteswap64 (w : Z) : Z :=
  int_from_bytes_big (le_digits 8 w).

End Py.
Import Py.

Declare Scope py_scope.
Delimit Scope py_scope with py.
Notation "x <- a ;; b" := (bind a (fun x => b))
  (at level 61, a at next level, right associativity) : py_scope.
Notation "' p <- a ;; b" := (bind a (fun x => let p := x in b))
  (at level 61, p pattern, a at next level, right associativity) : py_scope.
Local Open Scope py_scope.

(* ================================================================== *)
(** ** Native values                                                    *)
(* ================================================================== *)

(** A [str] is its sequence of code points. *)
Definition pystr := list Z.

Definition str (s : string) : pystr :=
  map (fun c => Z.of_nat (nat_of_ascii c)) (list_ascii_of_string s).

(** [uuid.SafeUUID] and the two attributes of a [uuid.UUID] object. *)
Inductive SafeUUID : Type := safe | unsafe | unknown.

Record PyUUID : Type := mkUUID { int : Z; is_safe : SafeUUID }.

(** [uuid.UUID(bytes=b)]: exactly 16 bytes, read big-endian. *)
Definition PyUUID_of_bytes (b : bytes) : result PyUUID :=
  if len b =? 16 then Ok (mkUUID (int_from_bytes_big b) unknown)
  else Raise ValueError.

(** The [bytes] attribute, [int.to_bytes(16, 'big')]. *)
Definition PyUUID_bytes (u : PyUUID) : result bytes :=
  int_to_bytes_big (int u) 16.

(** The Python objects that cross the codec boundary. *)
Inductive object : Type :=
| VNone
| VInt (z : Z)
| VStr (s : pystr)
| VBytes (b : bytes)                    (* bytes or bytearray *)
| VUUID (u : PyUUID)
| VList (l : list object)
| VTuple (l : list object)
| VDict (items : list (object * object)). (* in insertion order *)

Fixpoint list_eqb {A} (eqb : A -> A -> bool) (x y : list A) : bool :=
  match x, y with
  | [], [] => true
  | a :: x', b :: y' => eqb a b && list_eqb eqb x' y'
  | _, _ => false
  end.

(** Python's [==]: identifiers compare by [int] alone, sequences
    element-wise, mappings regardless of order. *)
Fixpoint py_eqb (a b : object) {struct a} : bool :=
  match a, b with
  | VNone, VNone => true
  | VInt x, VInt y => x =? y
  | VStr x, VStr y => list_eqb Z.eqb x y
  | VBytes x, VBytes y => list_eqb Byte.eqb x y
  | VUUID x, VUUID y => int x =? int y
  | VList x, VList y =>
      (fix go (x y : list object) : bool :=
         match x, y with
         | [], [] => true
         | a :: x', b :: y' => py_eqb a b && go x' y'
         | _, _ => false
         end) x y
  | VTuple x, VTuple y =>
      (fix go (x y : list object) : bool :=
         match x, y with
         | [], [] => true
         | a :: x', b :: y' => py_eqb a b && go x' y'
         | _, _ => false
         end) x y
  | VDict x, VDict y =>
      (List.length x =? List.length y)%nat &&
      (fix all (x : list (object * object)) : bool :=
         match x with
         | [] => true
         | (k, v) :: x' =>
             (fix find (y : list (object * object)) : bool :=
                match y with
                | [] => false
                | (k', v') :: y' => (py_eqb k k' && py_eqb v v') || find y'
                end) y && all x'
         end) x
  | _, _ => false
  end.

(** Lists and mappings cannot be keys of a [dict]. *)
Fixpoint hashable (v : object) : bool :=
  match v with
  | VList _ | VDict _ => false
  | VTuple l => (fix all (l : list object) : bool :=
                   match l with [] => true | a :: l' => hashable a && all l' end) l
  | _ => true
  end.

(** [d[key] = v]: an existing key keeps its place and takes the new value. *)
Fixpoint dict_store (d : list (object * object)) (key v : object) : list (object * object) :=
  match d with
  | [] => [(key, v)]
  | (k, old) :: d' => if py_eqb k key then (k, v) :: d' else (k, old) :: dict_store d' key v
  end.

Definition dict_setitem (d : list (object * object)) (key v : object)
  : result (list (object * object)) :=
  if hashable key then Ok (dict_store d key v) else Raise TypeError.

(** [len(v)]. *)
Definition py_len (v : object) : result Z :=
  match v with
  | VStr s => Ok (len s)
  | VBytes b => Ok (len b)
  | VList l | VTuple l => Ok (len l)
  | VDict d => Ok (len d)
  | VNone | VInt _ | VUUID _ => Raise TypeError
  end.

(** Iterating over [v], as [for x in v] and [zip] do. *)
Definition py_iter (v : object) : result (list object) :=
  match v with
  | VStr s => Ok (map (fun c => VStr [c]) s)
  | VBytes b => Ok (map (fun x => VInt (byte_val x)) b)
  | VList l | VTuple l => Ok l
  | VDict d => Ok (map fst d)
  | VNone | VInt _ | VUUID _ => Raise TypeError
  end.

(** [bytearray += v] takes a bytes-like object only. *)
Definition bytearray_iadd (dest : bytes) (v : object) : result bytes :=
  match v with
  | VBytes b => Ok (dest ++ b)
  | _ => Raise TypeError
  end.

(** [bytearray.extend(v)] takes a bytes-like object or an iterable of
    integers in [range(256)]; a [str] or a non-iterable is refused. *)
Fixpoint ints_to_bytes (l : list object) : result bytes :=
  match l with
  | [] => Ok []
  | VInt z :: l' =>
      if (0 <=? z) && (z <? 256)
      then b <- ints_to_bytes l' ;; Ok (byte_of_Z z :: b)
      else Raise ValueError
  | _ :: _ => Raise TypeError
  end.

Definition bytearray_extend (ret : bytes) (v : object) : result bytes :=
  match v with
  | VBytes b => Ok (ret ++ b)
  | VList l | VTuple l => b <- ints_to_bytes l ;; Ok (ret ++ b)
  | VDict d => b <- ints_to_bytes (map fst d) ;; Ok (ret ++ b)
  | VStr _ | VNone | VInt _ | VUUID _ => Raise TypeError
  end.

(* ================================================================== *)
(** ** Callables                                                        *)
(* ================================================================== *)

(** Python counts the positional arguments of a call against the parameters
    of the function and raises TypeError on a mismatch, before the body
    runs.  The module has two shapes of row-binary decoder and two shapes of
    row-binary encoder, so a callable records which one it is. *)

(** A decoder: [def f(source, loc)], or [def f(self, source, loc)] that was
    not bound to an instance. *)
Inductive decoder : Type :=
| def_source_loc (body : bytes -> Z -> result (object * Z))
| def_self_source_loc (body : object -> bytes -> Z -> result (object * Z)).

(** [conv(source, loc)] *)
Definition call_source_loc (conv : decoder) (source : bytes) (loc : Z)
  : result (object * Z) :=
  match conv with
  | def_source_loc body => body source loc
  | def_self_source_loc _ => Raise TypeError (* missing argument: 'loc' *)
  end.

(** An encoder: [def f(value, dest)], which appends to [dest] and returns
    nothing, or [def f(value)], which returns what it wrote. *)
Inductive encoder : Type :=
| def_value_dest (body : object -> bytes -> result bytes)
| def_value (body : object -> result object).

(** [conv(value, dest)]; the returned buffer is [dest] after the call. *)
Definition call_value_dest (conv : encoder) (v : object) (dest : bytes)
  : result bytes :=
  match conv with
  | def_value_dest body => body v dest
  | def_value _ => Raise TypeError (* takes 1 positional argument but 2 were given *)
  end.

(** [conv(value)]; a function that appends to [dest] misses its argument. *)
Definition call_value (conv : encoder) (v : object) : result object :=
  match conv with
  | def_value body => body v
  | def_value_dest _ => Raise TypeError (* missing argument: 'dest' *)
  end.

(** A column type declared in another module of the package, seen through the
    attributes this module reads. *)
Record ForeignType : Type := mkForeign {
  foreign_from_row_binary : decoder;
  foreign_to_row_binary : encoder;
  foreign_from_native : bytes -> Z -> Z -> bool -> result (object * Z);
  foreign_to_python : option (object -> result object)
}.

(** The instances of the classes of the module, with their slots. *)
Inductive ClickHouseType : Type :=
| UUID
| FixedString (size : Z)
| Nothing
| Array (element_type : ClickHouseType)
| Tuple (element_types : list ClickHouseType)
| Map (key_type value_type : ClickHouseType)
| AggregateFunction
| SimpleAggregateFunction (element_type : ClickHouseType)
| Foreign (c : ForeignType).

(** Modelled from the spec: [TypeDef] is declared in registry.py, which is
    not part of the module: the ordered parameter values of the type and its
    raw parameter text. *)
Record TypeDef : Type := mkTypeDef {
  values : list string;
  arg_str : string
}.

(* ================================================================== *)
(** ** FixedString: the class attributes and [fixed_string_format]      *)
(* ================================================================== *)

(** The functions that are stored in the class attributes [_transform] and
    [_encode_error], by name, each with the parameters of its [def]. *)
Inductive fs_function : Type :=
| _fixed_string_binary   (* def _fixed_string_binary(value) *)
| _fixed_string_decode   (* def _fixed_string_decode(cls, value) *)
| _hex_string            (* def _hex_string(cls, value) *)
| lambda_binary_data.    (* lambda cls: '<binary data>' *)

Definition parameters (f : fs_function) : nat :=
  match f with
  | _fixed_string_binary => 1
  | _fixed_string_decode => 2
  | _hex_string => 2
  | lambda_binary_data => 1
  end.

(** How the attribute was wrapped when it was assigned. *)
Inductive descriptor : Type :=
| staticmethod (f : fs_function)
| classmethod (f : fs_function).

(** The mutable attributes of the class [FixedString]; one state for the
    whole process. *)
Record FixedString_class : Type := mkFixedString_class {
  _encoding : string;
  _transform : descriptor;
  _encode_error : descriptor
}.

(** The class as the [class] statement leaves it. *)
Definition FixedString_initial : FixedString_class :=
  {| _encoding := "utf8";
     _transform := staticmethod _fixed_string_binary;
     _encode_error := staticmethod _fixed_string_binary |}.

(** [fixed_string_format(method, encoding, encoding_error)] assigns the class
    attributes; any other [method] leaves the class as it is. *)
Definition fixed_string_format (method encoding encoding_error : string)
    (cls : FixedString_class) : FixedString_class :=
  if String.eqb method "binary" then
    {| _encoding := _encoding cls;
       _transform := staticmethod _fixed_string_binary;
       _encode_error := _encode_error cls |}
  else if String.eqb method "decode" then
    {| _encoding := encoding;
       _transform := classmethod _fixed_string_decode;
       _encode_error :=
         if String.eqb encoding_error "hex" then classmethod _hex_string
         else classmethod lambda_binary_data |}
  else if String.eqb method "hex" then
    {| _encoding := _encoding cls;
       _transform := staticmethod _hex_string;
       _encode_error := _encode_error cls |}
  else cls.

(** A positional argument of a call of one of these functions: the class
    object or a byte buffer. *)
Inductive fs_arg : Type :=
| arg_cls
| arg_bytes (b : bytes).

(** What the call [x.attr(value)] passes: a [classmethod] puts the class
    first, a [staticmethod] passes the arguments as they are. *)
Definition positional (d : descriptor) (value : bytes) : fs_function * list fs_arg :=
  match d with
  | staticmethod f => (f, [arg_bytes value])
  | classmethod f => (f, [arg_cls; arg_bytes value])
  end.

Section Text.

(** [bytes.decode(encoding)] and [str.encode(encoding)], the codecs of the
    interpreter. *)
Variable bytes_decode : string -> bytes -> result pystr.
Variable str_encode : string -> pystr -> result bytes.

(** The bodies of [_fixed_string_binary], [_hex_string] and of the lambda,
    on the arguments of a call whose count is right. *)
Definition run_plain (f : fs_function) (args : list fs_arg) : result object :=
  match f, args with
  | _fixed_string_binary, [arg_bytes value] => Ok (VBytes value)
  | _fixed_string_binary, [arg_cls] => Raise TypeError
  | _hex_string, [_; arg_bytes value] =>
      Ok (VStr (map (fun c => Z.of_nat (nat_of_ascii c)) (hexlify value)))
  | _hex_string, [_; arg_cls] => Raise TypeError
  | lambda_binary_data, [_] => Ok (VStr (str "<binary data>"))
  | _, _ => Raise TypeError
  end.

(** The body of [_fixed_string_decode(cls, value)]:
    [try: return value.decode(cls._encoding)
     except UnicodeDecodeError: return cls._encode_error(value)];
    [on_error] is the call [cls._encode_error(value)]. *)
Definition run_decode (cls : FixedString_class) (on_error : bytes -> result object)
    (args : list fs_arg) : result object :=
  match args with
  | [arg_cls; arg_bytes value] =>
      match bytes_decode (_encoding cls) value with
      | Ok s => Ok (VStr s)
      | Raise UnicodeDecodeError => on_error value
      | Raise e => Raise e
      end
  | _ => Raise AttributeError
  end.

(** [cls._encode_error(value)].  Were [_fixed_string_decode] itself stored
    there, the failed decode would fail again and again. *)
Definition call__encode_error (cls : FixedString_class) (value : bytes) : result object :=
  let (f, args) := positional (_encode_error cls) value in
  if (List.length args =? parameters f)%nat then
    match f with
    | _fixed_string_decode => run_decode cls (fun _ => Raise RecursionError) args
    | _ => run_plain f args
    end
  else Raise TypeError.

(** [self._transform(value)]. *)
Definition call__transform (cls : FixedString_class) (value : bytes) : result object :=
  let (f, args) := positional (_transform cls) value in
  if (List.length args =? parameters f)%nat then
    match f with
    | _fixed_string_decode => run_decode cls (call__encode_error cls) args
    | _ => run_plain f args
    end
  else Raise TypeError.

(** [FixedString._from_row_binary(self, source, loc)] *)
Definition FixedString__from_row_binary (cls : FixedString_class) (size : Z)
    (source : bytes) (loc : Z) : result (object * Z) :=
  v <- call__transform cls (slice source loc (loc + size)) ;;
  Ok (v, loc + size).

(** [FixedString._to_row_binary(self, value, dest)] *)
Definition FixedString__to_row_binary (cls : FixedString_class)
    (value : object) (dest : bytes) : result bytes :=
  value <- match value with
           | VStr s => b <- str_encode (_encoding cls) s ;; Ok (VBytes b)
           | _ => Ok value
           end ;;
  bytearray_iadd dest value.

(** [FixedString.from_native(self, source, loc, num_rows, must_swap)] *)
Definition FixedString_from_native (cls : FixedString_class) (size : Z)
    (source : bytes) (loc : Z) (num_rows : Z) (must_swap : bool)
  : result (object * Z) :=
  let sz := size in
  let column :=
    VTuple (map (fun ix => VBytes (slice source (loc + ix * sz) (loc + ix * sz + sz)))
                (range num_rows)) in
  Ok (column, loc + sz * num_rows).

End Text.

(* ================================================================== *)
(** ** The column types                                                 *)
(* ================================================================== *)

(** *** UUID *)

(** [UUID._from_row_binary(source, loc)] *)
Definition UUID__from_row_binary (source : bytes) (loc : Z) : result (object * Z) :=
  let int_high := int_from_bytes_little (slice source loc (loc + 8)) in
  let int_low := int_from_bytes_little (slice source (loc + 8) (loc + 16)) in
  high <- int_to_bytes_big int_high 8 ;;
  low <- int_to_bytes_big int_low 8 ;;
  let byte_value := high ++ low in
  u <- PyUUID_of_bytes byte_value ;;
  Ok (VUUID u, loc + 16).

(** [UUID._to_row_binary(value, dest)] *)
Definition UUID__to_row_binary (value : object) (dest : bytes) : result bytes :=
  match value with
  | VUUID u =>
      source <- PyUUID_bytes u ;;
      let bytes_high := slice source 0 8 in
      let bytes_low := slice source 8 (len source) in
      let bytes_high := rev bytes_high in
      let bytes_low := rev bytes_low in
      Ok (dest ++ (bytes_high ++ bytes_low))
  | _ => Raise AttributeError
  end.

(** The loop of [UUID.from_native]: [v[s] << 64 | v[s + 1]] for each row,
    written into an object that [UUID.__new__] left empty, and marked
    [SafeUUID.unsafe]. *)
Definition fast_uuid (v : list Z) (ix : Z) : object :=
  let s := Z.shiftl ix 1 in
  VUUID (mkUUID (Z.lor (Z.shiftl (nth (Z.to_nat s) v 0) 64) (nth (Z.to_nat (s + 1)) v 0))
                unsafe).

(** [UUID.from_native(source, loc, num_rows, must_swap)] *)
Definition UUID_from_native (source : bytes) (loc : Z) (num_rows : Z) (must_swap : bool)
  : result (object * Z) :=
  v <- unpack_from_le_Q (num_rows * 2) source loc ;;
  let column := map (fast_uuid v) (range num_rows) in
  Ok (VList column, loc + num_rows * 16).

(** *** Nothing *)

(** [Nothing._from_row_binary(self, source, loc)], under [@staticmethod] *)
Definition Nothing__from_row_binary (self : object) (source : bytes) (loc : Z)
  : result (object * Z) :=
  Ok (VNone, loc).

(** [Nothing._to_row_binary(self, value, dest)] *)
Definition Nothing__to_row_binary (value : object) (dest : bytes) : result bytes :=
  Ok dest.

(** *** AggregateFunction *)

(** [AggregateFunction._from_row_binary(self, source, loc)] *)
Definition AggregateFunction__from_row_binary (source : bytes) (loc : Z)
  : result (object * Z) :=
  Raise (NotSupportedError "Aggregate function deserialization not supported").

(** [AggregateFunction._to_row_binary(self, value)] *)
Definition AggregateFunction__to_row_binary (value : object) : result object :=
  Raise (NotSupportedError "Aggregate function serialization not supported").

(** *** SimpleAggregateFunction *)

(** [SimpleAggregateFunction._from_row_binary(self, source, loc)] *)
Definition SimpleAggregateFunction__from_row_binary (element_from_row_binary : decoder)
    (source : bytes) (loc : Z) : result (object * Z) :=
  call_source_loc element_from_row_binary source loc.

(** [SimpleAggregateFunction._to_row_binary(self, value)] *)
Definition SimpleAggregateFunction__to_row_binary (element_to_row_binary : encoder)
    (value : object) : result object :=
  call_value element_to_row_binary value.

(** *** Tuple *)

(** [Tuple._from_row_binary(self, source, loc)]: the loop over
    [self.from_rb_funcs]. *)
Fixpoint Tuple_decode_loop (from_rb_funcs : list decoder) (source : bytes) (loc : Z)
  : result (list object * Z) :=
  match from_rb_funcs with
  | [] => Ok ([], loc)
  | conv :: rest =>
      '(value, loc) <- call_source_loc conv source loc ;;
      '(values, loc) <- Tuple_decode_loop rest source loc ;;
      Ok (value :: values, loc)
  end.

Definition Tuple__from_row_binary (from_rb_funcs : list decoder)
    (source : bytes) (loc : Z) : result (object * Z) :=
  '(values, loc) <- Tuple_decode_loop from_rb_funcs source loc ;;
  Ok (VTuple values, loc).

(** [Tuple._to_row_binary(self, values, dest)]: the loop over
    [zip(values, self.to_rb_funcs)], which stops at the shorter of the two. *)
Fixpoint Tuple_encode_loop (values : list object) (to_rb_funcs : list encoder)
    (dest : bytes) : result bytes :=
  match values, to_rb_funcs with
  | value :: values', conv :: rest =>
      dest <- call_value_dest conv value dest ;;
      Tuple_encode_loop values' rest dest
  | _, _ => Ok dest
  end.

Definition Tuple__to_row_binary (to_rb_funcs : list encoder)
    (values : object) (dest : bytes) : result bytes :=
  values <- py_iter values ;;
  Tuple_encode_loop values to_rb_funcs dest.

Section Codecs.

(** The length prefix of [driver.rowbinary], consumed by Array and Map. *)
Variable read_leb128 : bytes -> Z -> result (Z * Z).
Variable to_leb128 : Z -> bytes.

(** *** Array *)

(** [for x in range(size)]: one element after the other. *)
Fixpoint Array_decode_loop (conv : decoder) (size : nat) (source : bytes) (loc : Z)
  : result (list object * Z) :=
  match size with
  | O => Ok ([], loc)
  | S n =>
      '(value, loc) <- call_source_loc conv source loc ;;
      '(values, loc) <- Array_decode_loop conv n source loc ;;
      Ok (value :: values, loc)
  end.

(** [Array._from_row_binary(self, source, loc)] *)
Definition Array__from_row_binary (element_from_row_binary : decoder)
    (source : bytes) (loc : Z) : result (object * Z) :=
  '(size, loc) <- read_leb128 source loc ;;
  '(values, loc) <- Array_decode_loop element_from_row_binary (Z.to_nat size) source loc ;;
  Ok (VList values, loc).

(** [for value in values: conv(value, dest)] *)
Fixpoint Array_encode_loop (conv : encoder) (values : list object) (dest : bytes)
  : result bytes :=
  match values with
  | [] => Ok dest
  | value :: values' =>
      dest <- call_value_dest conv value dest ;;
      Array_encode_loop conv values' dest
  end.

(** [Array._to_row_binary(self, values, dest)] *)
Definition Array__to_row_binary (element_to_row_binary : encoder)
    (values : object) (dest : bytes) : result bytes :=
  n <- py_len values ;;
  let dest := dest ++ to_leb128 n in
  let conv := element_to_row_binary in
  values <- py_iter values ;;
  Array_encode_loop conv values dest.

(** The loop of [Array.from_native] over the offsets: [last] is the offset
    of the row before, [loc] the position in the element payload. *)
Fixpoint Array_native_loop (conv : bytes -> Z -> Z -> bool -> result (object * Z))
    (conv_py : option (object -> result object))
    (source : bytes) (must_swap : bool) (offsets : list Z) (last : Z) (loc : Z)
  : result (list object * Z) :=
  match offsets with
  | [] => Ok ([], loc)
  | offset :: rest =>
      let cnt := offset - last in
      let last := offset in
      '(val_list, loc) <- conv source loc cnt must_swap ;;
      val_list <- match conv_py with
                  | Some f => f val_list
                  | None => Ok val_list
                  end ;;
      '(column, loc) <- Array_native_loop conv conv_py source must_swap rest last loc ;;
      Ok (val_list :: column, loc)
  end.

(** The offsets that [Array.from_native] reads: [array.array('Q')] filled
    from [source[loc: loc + sz]], byte-swapped on request. *)
Definition Array_offsets (byteorder : byteorder) (source : bytes) (loc : Z)
    (num_rows : Z) (must_swap : bool) : result (list Z) :=
  let sz := num_rows * 8 in
  offsets <- array_Q_frombytes byteorder (slice source loc (loc + sz)) ;;
  Ok (if must_swap then map byteswap64 offsets else offsets).

(** [Array.from_native(self, source, loc, num_rows, must_swap)];
    [byteorder] is the byte order of the host. *)
Definition Array_from_native (byteorder : byteorder)
    (conv : bytes -> Z -> Z -> bool -> result (object * Z))
    (conv_py : option (object -> result object))
    (source : bytes) (loc : Z) (num_rows : Z) (must_swap : bool)
  : result (object * Z) :=
  offsets <- Array_offsets byteorder source loc num_rows must_swap ;;
  let loc := loc + num_rows * 8 in
  '(column, loc) <- Array_native_loop conv conv_py source must_swap offsets 0 loc ;;
  Ok (VList column, loc).

(** *** Map *)

(** [for x in range(size)] of [Map._from_row_binary]. *)
Fixpoint Map_decode_loop (key_from value_from : decoder) (size : nat)
    (values : list (object * object)) (source : bytes) (loc : Z)
  : result (list (object * object) * Z) :=
  match size with
  | O => Ok (values, loc)
  | S n =>
      '(key, loc) <- call_source_loc key_from source loc ;;
      '(value, loc) <- call_source_loc value_from source loc ;;
      values <- dict_setitem values key value ;;
      Map_decode_loop key_from value_from n values source loc
  end.

(** [Map._from_row_binary(self, source, loc)] *)
Definition Map__from_row_binary (key_from_rb value_from_rb : decoder)
    (source : bytes) (loc : Z) : result (object * Z) :=
  '(size, loc) <- read_leb128 source loc ;;
  let key_from := key_from_rb in
  let value_from := value_from_rb in
  '(values, loc) <- Map_decode_loop key_from value_from (Z.to_nat size) [] source loc ;;
  Ok (VDict values, loc).

(** [for key, value in values.items()] of [Map._to_row_binary]: both calls
    take [key]. *)
Fixpoint Map_encode_loop (key_to value_to : encoder) (items : list (object * object))
    (ret : bytes) : result bytes :=
  match items with
  | [] => Ok ret
  | (key, value) :: items' =>
      k <- call_value key_to key ;;
      ret <- bytearray_extend ret k ;;
      v <- call_value value_to key ;;
      ret <- bytearray_extend ret v ;;
      Map_encode_loop key_to value_to items' ret
  end.

(** [Map._to_row_binary(self, values)]: it takes no [dest] and returns a new
    [bytearray]. *)
Definition Map__to_row_binary (key_to_rb value_to_rb : encoder) (values : object)
  : result object :=
  let key_to := key_to_rb in
  let value_to := value_to_rb in
  match values with
  | VDict items =>
      ret <- Map_encode_loop key_to value_to items [] ;;
      Ok (VBytes ret)
  | _ => Raise AttributeError
  end.

End Codecs.

(* ================================================================== *)
(** ** Instances and their row-binary attributes                        *)
(* ================================================================== *)

(** [isinstance(t, Array)] *)
Definition isinstance_Array (t : ClickHouseType) : bool :=
  match t with
  | Array _ => true
  | _ => false
  end.

Section Registry.

(** [registry.get_from_name], which resolves a type name to an instance. *)
Variable get_from_name : string -> result ClickHouseType.

(** [type_def.values[0]] *)
Definition first_value (type_def : TypeDef) : result string :=
  match values type_def with
  | name :: _ => Ok name
  | [] => Raise IndexError
  end.

(** [Array.__init__(self, type_def)]: the instance, or the exception that
    leaves the constructor. *)
Definition Array__init__ (type_def : TypeDef) : result ClickHouseType :=
  name <- first_value type_def ;;
  element_type <- get_from_name name ;;
  if isinstance_Array element_type
  then Raise (DriverError "Nested arrays not supported")
  else Ok (Array element_type).

(** [Tuple.__init__(self, type_def)]: one resolved type per name, in order. *)
Fixpoint resolve_all (names : list string) : result (list ClickHouseType) :=
  match names with
  | [] => Ok []
  | name :: rest =>
      t <- get_from_name name ;;
      ts <- resolve_all rest ;;
      Ok (t :: ts)
  end.

Definition Tuple__init__ (type_def : TypeDef) : result ClickHouseType :=
  ts <- resolve_all (values type_def) ;;
  Ok (Tuple ts).

(** [Map.__init__(self, type_def)] *)
Definition Map__init__ (type_def : TypeDef) : result ClickHouseType :=
  match values type_def with
  | [] => Raise IndexError
  | key_name :: rest =>
      key_type <- get_from_name key_name ;;
      match rest with
      | [] => Raise IndexError
      | value_name :: _ =>
          value_type <- get_from_name value_name ;;
          Ok (Map key_type value_type)
      end
  end.

End Registry.

Section Instances.

Variable read_leb128 : bytes -> Z -> result (Z * Z).
Variable to_leb128 : Z -> bytes.
Variable bytes_decode : string -> bytes -> result pystr.
Variable str_encode : string -> pystr -> result bytes.

(** The state of the class [FixedString] when the call is made. *)
Variable cls : FixedString_class.

(** Modelled from the spec: the base class [ClickHouseType] is declared in
    registry.py, which is not part of the module.  Its attribute
    [from_row_binary] is the [decode_one(buffer, pos)] of the codec contract:
    the [_from_row_binary] of the class, looked up on the instance (of a type
    that is not wrapped in Nullable).  A plain method is bound to [self]; a
    [staticmethod] is the function as declared. *)
Fixpoint from_row_binary (self : ClickHouseType) : decoder :=
  match self with
  | UUID => def_source_loc UUID__from_row_binary
  | FixedString size =>
      def_source_loc (FixedString__from_row_binary bytes_decode cls size)
  | Nothing => def_self_source_loc Nothing__from_row_binary
  | Array element_type =>
      def_source_loc (Array__from_row_binary read_leb128 (from_row_binary element_type))
  | Tuple element_types =>
      def_source_loc (Tuple__from_row_binary (map from_row_binary element_types))
  | Map key_type value_type =>
      def_source_loc (Map__from_row_binary read_leb128
                        (from_row_binary key_type) (from_row_binary value_type))
  | AggregateFunction => def_source_loc AggregateFunction__from_row_binary
  | SimpleAggregateFunction element_type =>
      def_source_loc (SimpleAggregateFunction__from_row_binary
                        (from_row_binary element_type))
  | Foreign c => foreign_from_row_binary c
  end.

(** Modelled from the spec: likewise the attribute [to_row_binary] of the
    base class, the [encode_one(value, out_buffer)] of the codec contract:
    the [_to_row_binary] of the class, looked up on the instance. *)
Fixpoint to_row_binary (self : ClickHouseType) : encoder :=
  match self with
  | UUID => def_value_dest UUID__to_row_binary
  | FixedString size => def_value_dest (FixedString__to_row_binary str_encode cls)
  | Nothing => def_value_dest Nothing__to_row_binary
  | Array element_type =>
      def_value_dest (Array__to_row_binary to_leb128 (to_row_binary element_type))
  | Tuple element_types =>
      def_value_dest (Tuple__to_row_binary (map to_row_binary element_types))
  | Map key_type value_type =>
      def_value (Map__to_row_binary (to_row_binary key_type) (to_row_binary value_type))
  | AggregateFunction => def_value AggregateFunction__to_row_binary
  | SimpleAggregateFunction element_type =>
      def_value (SimpleAggregateFunction__to_row_binary (to_row_binary element_type))
  | Foreign c => foreign_to_row_binary c
  end.

(** [decode_one(buffer, pos)] and [encode_one(value, out_buffer)] on an
    instance. *)
Definition decode_one (self : ClickHouseType) (source : bytes) (loc : Z)
  : result (object * Z) :=
  call_source_loc (from_row_binary self) source loc.

Definition encode_one (self : ClickHouseType) (value : object) (dest : bytes)
  : result bytes :=
  call_value_dest (to_row_binary self) value dest.

End Instances.

(* ================================================================== *)
(** ** Reference definitions of the specification                       *)
(* ================================================================== *)

(** The little-endian 64-bit word found at position [p]. *)
Definition word64_at (source : bytes) (p : Z) : Z :=
  int_from_bytes_little (slice source p (p + 8)).

(** The bytes that [UUID._to_row_binary] writes for the identifier whose
    standard-order bytes are [b]. *)
Definition uuid_wire (b : bytes) : bytes :=
  rev (slice b 0 8) ++ rev (slice b 8 16).

(** The identifier that the bulk path builds for row [i]. *)
Definition native_uuid (source : bytes) (loc i : Z) : object :=
  VUUID (mkUUID (Z.lor (Z.shiftl (word64_at source (loc + 16 * i)) 64)
                       (word64_at source (loc + 16 * i + 8)))
                unsafe).

(** The reference for a bulk decode: [n] calls of the row-oriented decode on
    the same bytes, each one starting where the one before stopped. *)
Fixpoint row_by_row (decode : bytes -> Z -> result (object * Z)) (n : nat)
    (source : bytes) (loc : Z) : result (list object * Z) :=
  match n with
  | O => Ok ([], loc)
  | S k =>
      match decode source loc with
      | Ok (v, loc') =>
          match row_by_row decode k source loc' with
          | Ok (vs, loc'') => Ok (v :: vs, loc'')
          | Raise e => Raise e
          end
      | Raise e => Raise e
      end
  end.

Definition uuid_example : bytes :=
  [x00; x11; x22; x33; x44; x55; x66; x77; x88; x99; xaa; xbb; xcc; xdd; xee; xff].

(** *** Text codecs for the examples *)

(** UTF-8, strict: no overlong form, no surrogate, nothing above U+10FFFF. *)
Definition continuation (x : byte) : bool :=
  (128 <=? byte_val x) && (byte_val x <? 192).

Fixpoint utf8_decode (b : bytes) : result pystr :=
  match b with
  | [] => Ok []
  | x :: r =>
      let c := byte_val x in
      if c <? 128 then s <- utf8_decode r ;; Ok (c :: s)
      else if (194 <=? c) && (c <? 224) then
        match r with
        | y :: r' =>
            if continuation y
            then s <- utf8_decode r' ;; Ok ((c - 192) * 64 + (byte_val y - 128) :: s)
            else Raise UnicodeDecodeError
        | _ => Raise UnicodeDecodeError
        end
      else if (224 <=? c) && (c <? 240) then
        match r with
        | y :: z :: r' =>
            let cp := (c - 224) * 4096 + (byte_val y - 128) * 64 + (byte_val z - 128) in
            if continuation y && continuation z && (2048 <=? cp)
               && negb ((55296 <=? cp) && (cp <? 57344))
            then s <- utf8_decode r' ;; Ok (cp :: s)
            else Raise UnicodeDecodeError
        | _ => Raise UnicodeDecodeError
        end
      else if (240 <=? c) && (c <? 245) then
        match r with
        | y :: z :: w :: r' =>
            let cp := (c - 240) * 262144 + (byte_val y - 128) * 4096
                      + (byte_val z - 128) * 64 + (byte_val w - 128) in
            if continuation y && continuation z && continuation w
               && (65536 <=? cp) && (cp <? 1114112)
            then s <- utf8_decode r' ;; Ok (cp :: s)
            else Raise UnicodeDecodeError
        | _ => Raise UnicodeDecodeError
        end
      else Raise UnicodeDecodeError
  end.

Definition utf8_encode_char (cp : Z) : result bytes :=
  if cp <? 0 then Raise UnicodeEncodeError
  else if cp <? 128 then Ok [byte_of_Z cp]
  else if cp <? 2048 then Ok [byte_of_Z (192 + cp / 64); byte_of_Z (128 + cp mod 64)]
  else if cp <? 65536 then
    if (55296 <=? cp) && (cp <? 57344) then Raise UnicodeEncodeError
    else Ok [byte_of_Z (224 + cp / 4096); byte_of_Z (128 + (cp / 64) mod 64);
             byte_of_Z (128 + cp mod 64)]
  else if cp <? 1114112 then
    Ok [byte_of_Z (240 + cp / 262144); byte_of_Z (128 + (cp / 4096) mod 64);
        byte_of_Z (128 + (cp / 64) mod 64); byte_of_Z (128 + cp mod 64)]
  else Raise UnicodeEncodeError.

Fixpoint utf8_encode (s : pystr) : result bytes :=
  match s with
  | [] => Ok []
  | cp :: s' => b <- utf8_encode_char cp ;; r <- utf8_encode s' ;; Ok (b ++ r)
  end.

(** [bytes.decode] for the encodings the examples use: 'utf8', 'ascii',
    which accepts the bytes below 128, and 'latin-1', which accepts every
    byte; a name that is not known is a LookupError. *)
Definition codec_decode (encoding : string) (b : bytes) : result pystr :=
  if String.eqb encoding "utf8" || String.eqb encoding "utf-8" then utf8_decode b
  else if String.eqb encoding "ascii" then
    if forallb (fun x => byte_val x <? 128) b then Ok (map byte_val b)
    else Raise UnicodeDecodeError
  else if String.eqb encoding "latin-1" then Ok (map byte_val b)
  else Raise LookupError.

(** [str.encode] for the same encodings. *)
Definition codec_encode (encoding : string) (s : pystr) : result bytes :=
  if String.eqb encoding "utf8" || String.eqb encoding "utf-8" then utf8_encode s
  else if String.eqb encoding "ascii" then
    if forallb (fun c => (0 <=? c) && (c <? 128)) s then Ok (map byte_of_Z s)
    else Raise UnicodeEncodeError
  else if String.eqb encoding "latin-1" then
    if forallb (fun c => (0 <=? c) && (c <? 256)) s then Ok (map byte_of_Z s)
    else Raise UnicodeEncodeError
  else Raise LookupError.

(** *** Truncated input *)

(** What the specification asks of a decoder whose value takes [width]
    bytes: a position with fewer bytes left than [width] makes it raise. *)
Definition fails_on_underrun (decode : bytes -> Z -> result (object * Z)) (width : Z)
  : Prop :=
  forall source loc,
    0 <= loc -> len source < loc + width ->
    exists e, decode source loc = Raise e.

(** *** Configuration errors *)

(** The call did not raise a [DriverError], the configuration-error kind. *)
Definition no_DriverError {A} (r : result A) : Prop :=
  match r with
  | Raise (DriverError _) => False
  | _ => True
  end.

(** A registry for the examples: three names it knows. *)
Definition example_registry (name : string) : result ClickHouseType :=
  if String.eqb name "UUID" then Ok UUID
  else if String.eqb name "FixedString(2)" then Ok (FixedString 2)
  else if String.eqb name "Array(UUID)" then Ok (Array UUID)
  else Raise (DriverError "Unrecognized ClickHouse type").

(** *** Map encode *)

(** The bytes the specification asks of the map encode: the pair count as a
    length prefix, then for each pair the key by the key codec and the value
    by the value codec. *)
Definition map_wire_expected (to_leb128 : Z -> bytes)
    (key_bytes value_bytes : object -> bytes) (items : list (object * object)) : bytes :=
  to_leb128 (len items)
  ++ flat_map (fun kv => key_bytes (fst kv) ++ value_bytes (snd kv)) items.

(** A one-byte integer codec for the examples, in the shape
    [def f(value) -> bytes] that [Map._to_row_binary] calls. *)
Definition one_byte_to_row_binary : encoder :=
  def_value (fun v => match v with
                      | VInt z => Ok (VBytes [byte_of_Z z])
                      | _ => Raise TypeError
                      end).

(** The decoder of the same codec: one byte at [loc]. *)
Definition one_byte_from_row_binary : decoder :=
  def_source_loc (fun source loc =>
                    match slice source loc (loc + 1) with
                    | [x] => Ok (VInt (byte_val x), loc + 1)
                    | _ => Raise IndexError
                    end).

(** *** Array bulk decode *)

(** The word of row [i] in the offsets column at [loc]: eight bytes read in
    host order, or in the other order when a byte swap is requested. *)
Definition offset_at (host : byteorder) (must_swap : bool) (source : bytes)
    (loc i : Z) : Z :=
  int_from_bytes (if must_swap then swapped host else host)
                 (slice source (loc + 8 * i) (loc + 8 * i + 8)).

(** [offset[i] - offset[i-1]] for each row, [last] standing for the offset
    before the first one. *)
Fixpoint row_counts (last : Z) (offsets : list Z) : list Z :=
  match offsets with
  | [] => []
  | offset :: rest => (offset - last) :: row_counts offset rest
  end.

(** [conv_py(val_list)] when the element type has a [to_python]. *)
Definition apply_to_python (conv_py : option (object -> result object)) (val_list : object)
  : result object :=
  match conv_py with
  | Some f => f val_list
  | None => Ok val_list
  end.

(** Rows decoded in row order, without overlap or gap: the row with count
    [cnt] is decoded from where the row before stopped, and the next row
    starts where it stops. *)
Inductive rows_decoded (conv : bytes -> Z -> Z -> bool -> result (object * Z))
    (conv_py : option (object -> result object)) (source : bytes) (must_swap : bool)
  : Z -> list Z -> list object -> Z -> Prop :=
| rows_done (loc : Z) : rows_decoded conv conv_py source must_swap loc [] [] loc
| rows_next (loc cnt loc' loc'' : Z) (counts : list Z)
            (val_list row : object) (column : list object) :
    conv source loc cnt must_swap = Ok (val_list, loc') ->
    apply_to_python conv_py val_list = Ok row ->
    rows_decoded conv conv_py source must_swap loc' counts column loc'' ->
    rows_decoded conv conv_py source must_swap loc (cnt :: counts) (row :: column) loc''.

Definition sum (l : list Z) : Z := fold_right Z.add 0 l.

(** A column of three arrays of one-byte strings: the offsets 2, 2, 5 as
    little-endian words, then the five elements. *)
Definition array_example : bytes :=
  [x02; x00; x00; x00; x00; x00; x00; x00;
   x02; x00; x00; x00; x00; x00; x00; x00;
   x05; x00; x00; x00; x00; x00; x00; x00;
   x61; x62; x63; x64; x65].

(** *** Round trip *)

(** What the specification asks of a codec on a value [v]: the bytes that
    the row-oriented encode writes decode to a value equal to [v], and the
    decode consumes them all. *)
Definition round_trips (encode : object -> bytes -> result bytes)
    (decode : bytes -> Z -> result (object * Z)) (v : object) : Prop :=
  exists wire v',
    encode v [] = Ok wire /\ decode wire 0 = Ok (v', len wire) /\ py_eqb v' v = true.

(** The types for which the round trip is proved: UUID, FixedString of a
    width that is not negative, tuples of such types and, when [arrays] is
    set, arrays of them. *)
Fixpoint round_trip_type (arrays : bool) (t : ClickHouseType) : bool :=
  match t with
  | UUID => true
  | FixedString size => 0 <=? size
  | Array element_type => arrays && round_trip_type arrays element_type
  | Tuple element_types => forallb (round_trip_type arrays) element_types
  | _ => false
  end.

(** The values of such a type: a 128-bit identifier, a byte string of the
    declared width, a list of elements, a tuple of the declared arity. *)
Fixpoint in_domain (t : ClickHouseType) (v : object) {struct t} : bool :=
  match t, v with
  | UUID, VUUID u => (0 <=? int u) && (int u <? 2 ^ 128)
  | FixedString size, VBytes b => len b =? size
  | Array element_type, VList vs => forallb (in_domain element_type) vs
  | Tuple element_types, VTuple vs =>
      (fix go (ts : list ClickHouseType) (vs : list object) : bool :=
         match ts, vs with
         | [], [] => true
         | t :: ts', v :: vs' => in_domain t v && go ts' vs'
         | _, _ => false
         end) element_types vs
  | _, _ => false
  end.

(** What the round trip of arrays needs of the length prefix: reading back
    what [to_leb128] wrote gives the count and stops right after it. *)
Definition leb128_round_trip (read_leb128 : bytes -> Z -> result (Z * Z))
    (to_leb128 : Z -> bytes) : Prop :=
  forall n dest rest,
    0 <= n ->
    read_leb128 (dest ++ to_leb128 n ++ rest) (len dest)
    = Ok (n, len dest + len (to_leb128 n)).

(** Modelled from the spec: [read_leb128] and [to_leb128] are declared in
    driver/rowbinary.py, which is not part of the module; the specification
    only says that they decode and encode a non-negative count as a
    variable-length byte sequence.  For the examples: seven bits per byte,
    least significant group first, the high bit set on every byte but the
    last. *)
Fixpoint to_leb128_loop (fuel : nat) (value : Z) : bytes :=
  match fuel with
  | O => []
  | S f =>
      let b := value mod 128 in
      let value := value / 128 in
      if value =? 0 then [byte_of_Z b]
      else byte_of_Z (128 + b) :: to_leb128_loop f value
  end.

Definition example_to_leb128 (value : Z) : bytes :=
  to_leb128_loop (S (Z.to_nat (Z.log2 value))) value.

Fixpoint read_leb128_loop (b : bytes) (shift length pos : Z) : result (Z * Z) :=
  match b with
  | [] => Raise IndexError
  | x :: rest =>
      let length := length + (byte_val x mod 128) * 2 ^ shift in
      if byte_val x <? 128 then Ok (length, pos + 1)
      else read_leb128_loop rest (shift + 7) length (pos + 1)
  end.

Definition example_read_leb128 (source : bytes) (start : Z) : result (Z * Z) :=
  if (start <? 0) || (len source <=? start) then Raise IndexError
  else read_leb128_loop (skipn (Z.to_nat start) source) 0 0 start.

(** The round trip of [v] at any place of a buffer: the encode appends
    [wire] to whatever [dest] holds, and the decode of a buffer that holds
    [wire] at a position returns a value equal to [v] and stops right after
    [wire]. *)
Definition encodes_and_decodes_back (encode : object -> bytes -> result bytes)
    (decode : bytes -> Z -> result (object * Z)) (v : object) : Prop :=
  exists wire v',
    (forall dest, encode v dest = Ok (dest ++ wire)) /\
    (forall dest rest,
       decode (dest ++ wire ++ rest) (len dest) = Ok (v', len dest + len wire)) /\
    py_eqb v' v = true.

(** The other direction, on the bytes [source[loc:loc']] that a decode
    consumed: the encode of the decoded value writes those bytes again. *)
Definition decodes_and_encodes_back (encode : object -> bytes -> result bytes)
    (decode : bytes -> Z -> result (object * Z)) : Prop :=
  forall source loc v loc',
    0 <= loc -> decode source loc = Ok (v, loc') ->
    loc <= loc' /\
    (loc' <= len source ->
     forall dest, encode v dest = Ok (dest ++ slice source loc loc')).

(** A tuple of an identifier and an array of two-byte strings. *)
Definition round_trip_example_type : ClickHouseType :=
  Tuple [UUID; Array (FixedString 2)].

Definition round_trip_example_value : object :=
  VTuple [VUUID (mkUUID 0x00112233445566778899aabbccddeeff unknown);
          VList [VBytes [x61; x62]; VBytes [x63; x64]]].

(** *** Further reference definitions *)

(** The bytes of a [bytes] object; nothing for any other object. *)
Definition bytes_of (v : object) : bytes :=
  match v with
  | VBytes b => b
  | _ => []
  end.

(** The code points of the digits [0-9] and of the letters [a-f]. *)
Definition is_hex_digit (c : Z) : bool :=
  ((48 <=? c) && (c <=? 57)) || ((97 <=? c) && (c <=? 102)).

(** The types built from the classes of this module alone. *)
Fixpoint local_type (t : ClickHouseType) : bool :=
  match t with
  | UUID | FixedString _ | Nothing | AggregateFunction => true
  | Array element_type | SimpleAggregateFunction element_type => local_type element_type
  | Tuple element_types => forallb local_type element_types
  | Map key_type value_type => local_type key_type && local_type value_type
  | Foreign _ => false
  end.

(** An encode that only appends: the bytes it adds to [dest] are the bytes it
    writes into an empty buffer, and it raises on [dest] what it raises
    there. *)
Definition appends_only (encode : object -> bytes -> result bytes) : Prop :=
  forall v dest,
    encode v dest = match encode v [] with
                    | Ok wire => Ok (dest ++ wire)
                    | Raise e => Raise e
                    end.


(** Offsets that never decrease, from [last] on. *)
Fixpoint nondecreasing (last : Z) (offsets : list Z) : bool :=
  match offsets with
  | [] => true
  | offset :: rest => (last <=? offset) && nondecreasing offset rest
  end.

(** The type under the [SimpleAggregateFunction] wrappers. *)
Fixpoint underlying (t : ClickHouseType) : ClickHouseType :=
  match t with
  | SimpleAggregateFunction element_type => underlying element_type
  | _ => t
  end.

(** A column of three arrays of identifiers with 1, 0 and 1 elements: the
    offsets 1, 1, 2, then the two identifiers. *)
Definition array_uuid_example : bytes :=
  [x01; x00; x00; x00; x00; x00; x00; x00;
   x01; x00; x00; x00; x00; x00; x00; x00;
   x02; x00; x00; x00; x00; x00; x00; x00]
  ++ uuid_wire uuid_example ++ uuid_wire uuid_example.

(* ================================================================== *)
(** ** Bytes and integers                                               *)
(* ================================================================== *)

Lemma byte_val_range (b : byte) : 0 <= byte_val b < 256.
Proof.
  unfold byte_val. pose proof (Byte.to_N_bounded b). lia.
Qed.

Lemma byte_of_Z_val (b : byte) : byte_of_Z (byte_val b) = b.
Proof.
  unfold byte_of_Z. pose proof (byte_val_range b) as H.
  rewrite Z.mod_small by lia. unfold byte_val.
  rewrite N2Z.id, Byte.of_to_N. reflexivity.
Qed.

Lemma byte_val_of_Z (z : Z) : byte_val (byte_of_Z z) = z mod 256.
Proof.
  unfold byte_of_Z, byte_val.
  pose proof (Z.mod_pos_bound z 256 ltac:(lia)) as H.
  destruct (Byte.of_N (Z.to_N (z mod 256))) as [b|] eqn:E.
  - apply Byte.to_of_N in E. rewrite E. lia.
  - apply Byte.of_N_None_iff in E. lia.
Qed.

Lemma len_app {A} (a b : list A) : len (a ++ b) = len a + len b.
Proof. unfold len. rewrite length_app. lia. Qed.

Lemma len_nonneg {A} (l : list A) : 0 <= len l.
Proof. unfold len. lia. Qed.

Lemma len_rev {A} (l : list A) : len (rev l) = len l.
Proof. unfold len. rewrite length_rev. reflexivity. Qed.

Lemma int_from_bytes_little_range (b : bytes) :
  0 <= int_from_bytes_little b < 256 ^ len b.
Proof.
  induction b as [|x b IH]; cbn [int_from_bytes_little].
  - unfold len; simpl. lia.
  - pose proof (byte_val_range x).
    replace (len (x :: b)) with (Z.succ (len b))
      by (unfold len; cbn [List.length]; lia).
    rewrite Z.pow_succ_r by apply len_nonneg. lia.
Qed.

Lemma le_digits_length (w : nat) (n : Z) : List.length (le_digits w n) = w.
Proof. revert n; induction w; intros; simpl; auto. Qed.

(** The digits of the integer that a byte string spells are that string. *)
Lemma le_digits_int_from_bytes (b : bytes) :
  le_digits (List.length b) (int_from_bytes_little b) = b.
Proof.
  induction b as [|x b IH]; cbn [le_digits int_from_bytes_little List.length];
    [reflexivity|].
  pose proof (byte_val_range x) as Hx.
  set (k := int_from_bytes_little b) in *.
  assert (Hmod : (byte_val x + 256 * k) mod 256 = byte_val x).
  { rewrite Z.mul_comm, Z.mod_add by lia. apply Z.mod_small; lia. }
  assert (Hdiv : (byte_val x + 256 * k) / 256 = k).
  { rewrite Z.mul_comm, Z.div_add by lia.
    rewrite (Z.div_small (byte_val x)) by lia. lia. }
  f_equal.
  - transitivity (byte_of_Z (byte_val x)); [|apply byte_of_Z_val].
    unfold byte_of_Z. rewrite Hmod, (Z.mod_small (byte_val x)) by lia. reflexivity.
  - rewrite Hdiv. exact IH.
Qed.

(** The integer that the [w] low digits of [n] spell is [n] modulo [256^w]. *)
Lemma int_from_bytes_le_digits (w : nat) (n : Z) :
  int_from_bytes_little (le_digits w n) = n mod 256 ^ Z.of_nat w.
Proof.
  revert n; induction w as [|w IH]; intros n.
  - simpl. rewrite Z.mod_1_r. reflexivity.
  - cbn [le_digits int_from_bytes_little].
    rewrite IH, byte_val_of_Z, Nat2Z.inj_succ, Z.pow_succ_r by lia.
    rewrite Z.rem_mul_r by lia. reflexivity.
Qed.

Lemma int_to_bytes_big_from_bytes (b : bytes) :
  int_to_bytes_big (int_from_bytes_little b) (List.length b) = Ok (rev b).
Proof.
  unfold int_to_bytes_big, int_to_bytes_little.
  pose proof (int_from_bytes_little_range b) as H. unfold len in H.
  destruct (int_from_bytes_little b <? 0) eqn:E1; [lia|].
  destruct (256 ^ Z.of_nat (List.length b) <=? int_from_bytes_little b) eqn:E2; [lia|].
  simpl. rewrite le_digits_int_from_bytes. reflexivity.
Qed.

Lemma int_to_bytes_big_ok (n : Z) (w : nat) :
  0 <= n < 256 ^ Z.of_nat w ->
  int_to_bytes_big n w = Ok (rev (le_digits w n)).
Proof.
  intros H. unfold int_to_bytes_big, int_to_bytes_little.
  destruct (n <? 0) eqn:E1; [lia|].
  destruct (256 ^ Z.of_nat w <=? n) eqn:E2; [lia|]. reflexivity.
Qed.

(** *** Slices *)

Lemma slice_inside {A} (l : list A) (i j : Z) :
  0 <= i -> 0 <= j ->
  slice l i j =
  firstn (Z.to_nat (Z.min j (len l) - Z.min i (len l)))
         (skipn (Z.to_nat (Z.min i (len l))) l).
Proof.
  intros Hi Hj. unfold slice, slice_index.
  destruct (i <? 0) eqn:Ei; [lia|]. destruct (j <? 0) eqn:Ej; [lia|].
  reflexivity.
Qed.

Lemma slice_middle {A} (a b c : list A) :
  slice (a ++ b ++ c) (len a) (len a + len b) = b.
Proof.
  pose proof (len_nonneg a). pose proof (len_nonneg b). pose proof (len_nonneg c).
  rewrite slice_inside by lia.
  rewrite !len_app.
  rewrite !Z.min_l by lia.
  replace (len a + len b - len a) with (len b) by lia.
  unfold len. rewrite !Nat2Z.id.
  rewrite skipn_app, skipn_all, Nat.sub_diag. simpl.
  rewrite firstn_app, firstn_all, Nat.sub_diag. simpl. apply app_nil_r.
Qed.

Lemma slice_all {A} (l : list A) : slice l 0 (len l) = l.
Proof.
  pose proof (slice_middle [] l []) as H. simpl in H.
  rewrite app_nil_r in H. exact H.
Qed.

Lemma slice_length {A} (l : list A) (i j : Z) :
  0 <= i <= j -> j <= len l -> len (slice l i j) = j - i.
Proof.
  intros Hij Hj. rewrite slice_inside by lia.
  rewrite !Z.min_l by lia.
  unfold len in *. rewrite length_firstn, length_skipn. lia.
Qed.

Lemma slice_split {A} (l : list A) (i j k : Z) :
  0 <= i <= j -> j <= k -> slice l i j ++ slice l j k = slice l i k.
Proof.
  intros Hij Hjk. rewrite !slice_inside by lia.
  set (n := len l).
  set (a := Z.to_nat (Z.min i n)).
  set (b := Z.to_nat (Z.min j n)).
  set (c := Z.to_nat (Z.min k n)).
  assert (Hab : (a <= b)%nat) by (subst a b; lia).
  assert (Hbc : (b <= c)%nat) by (subst b c; lia).
  assert (Ei : Z.min i n = Z.of_nat a) by (subst a n; pose proof (len_nonneg l); lia).
  assert (Ej : Z.min j n = Z.of_nat b) by (subst b n; pose proof (len_nonneg l); lia).
  assert (Ek : Z.min k n = Z.of_nat c) by (subst c n; pose proof (len_nonneg l); lia).
  rewrite Ei, Ej, Ek.
  replace (Z.to_nat (Z.of_nat b - Z.of_nat a)) with (b - a)%nat by lia.
  replace (Z.to_nat (Z.of_nat c - Z.of_nat b)) with (c - b)%nat by lia.
  replace (Z.to_nat (Z.of_nat c - Z.of_nat a)) with ((b - a) + (c - b))%nat by lia.
  replace (skipn b l) with (skipn (b - a) (skipn a l))
    by (rewrite skipn_skipn; f_equal; lia).
  generalize (skipn a l) as m. generalize (b - a)%nat as p. generalize (c - b)%nat as q.
  intros q p; induction p as [|p IH]; intros m; simpl.
  - reflexivity.
  - destruct m as [|x m]; simpl.
    + rewrite !firstn_nil. reflexivity.
    + f_equal. apply IH.
Qed.

(* ================================================================== *)
(** ** UUID                                                             *)
(* ================================================================== *)

Lemma length_of_len {A} (l : list A) (n : nat) : len l = Z.of_nat n -> List.length l = n.
Proof. unfold len. lia. Qed.

(** [int.from_bytes(x, 'little').to_bytes(8, 'big')] reverses 8 bytes. *)
Lemma little_then_big (x : bytes) :
  len x = 8 -> int_to_bytes_big (int_from_bytes_little x) 8 = Ok (rev x).
Proof.
  intros H. apply (length_of_len x 8) in H.
  rewrite <- H. apply int_to_bytes_big_from_bytes.
Qed.

Lemma uuid_wire_halves (b : bytes) :
  len b = 16 ->
  len (rev (slice b 0 8)) = 8 /\ len (rev (slice b 8 16)) = 8 /\
  slice b 0 8 ++ slice b 8 16 = b.
Proof.
  intros H. rewrite !len_rev, !slice_length by lia.
  repeat split; try lia.
  rewrite slice_split by lia. rewrite <- H. apply slice_all.
Qed.

Lemma UUID_bytes_of_bytes (b : bytes) :
  len b = 16 -> PyUUID_bytes (mkUUID (int_from_bytes_big b) unknown) = Ok b.
Proof.
  intros H. unfold PyUUID_bytes, int_from_bytes_big. cbn [int].
  assert (Hr : List.length (rev b) = 16%nat)
    by (apply length_of_len; rewrite len_rev; exact H).
  rewrite <- Hr. rewrite int_to_bytes_big_from_bytes, rev_involutive. reflexivity.
Qed.

Lemma UUID_encode_bytes (b dest : bytes) :
  len b = 16 ->
  UUID__to_row_binary (VUUID (mkUUID (int_from_bytes_big b) unknown)) dest
  = Ok (dest ++ uuid_wire b).
Proof.
  intros H. unfold UUID__to_row_binary.
  rewrite UUID_bytes_of_bytes by exact H. cbn [bind]. rewrite H. reflexivity.
Qed.

(** Decoding 16 wire bytes [hi ++ lo] found at [len dest]. *)
Lemma UUID_decode_wire (dest hi lo rest : bytes) :
  len hi = 8 -> len lo = 8 ->
  UUID__from_row_binary (dest ++ (hi ++ lo) ++ rest) (len dest)
  = Ok (VUUID (mkUUID (int_from_bytes_big (rev hi ++ rev lo)) unknown), len dest + 16).
Proof.
  intros Hh Hl. unfold UUID__from_row_binary.
  assert (E1 : slice (dest ++ (hi ++ lo) ++ rest) (len dest) (len dest + 8) = hi).
  { rewrite <- Hh, <- !app_assoc. apply slice_middle. }
  assert (E2 : slice (dest ++ (hi ++ lo) ++ rest) (len dest + 8) (len dest + 16) = lo).
  { replace (len dest + 16) with (len (dest ++ hi) + len lo) by (rewrite len_app; lia).
    replace (len dest + 8) with (len (dest ++ hi)) by (rewrite len_app; lia).
    rewrite <- !app_assoc. rewrite (app_assoc dest hi). apply slice_middle. }
  rewrite E1, E2, !little_then_big by assumption. cbn [bind].
  unfold PyUUID_of_bytes.
  rewrite len_app, !len_rev, Hh, Hl. reflexivity.
Qed.

(** C3.  The UUID row-binary transform is self-inverse: for every 16-byte
    identifier in standard order, [_to_row_binary] appends exactly the two
    8-byte halves of the standard form, each reversed on its own, the high
    half first, and [_from_row_binary] on those bytes returns the original
    identifier and advances the position by 16. *)
Theorem UUID_row_binary_self_inverse (b dest rest : bytes) :
  len b = 16 ->
  let u := mkUUID (int_from_bytes_big b) unknown in
  PyUUID_of_bytes b = Ok u /\
  UUID__to_row_binary (VUUID u) dest
    = Ok (dest ++ rev (slice b 0 8) ++ rev (slice b 8 16)) /\
  UUID__from_row_binary (dest ++ (rev (slice b 0 8) ++ rev (slice b 8 16)) ++ rest)
                        (len dest)
    = Ok (VUUID u, len dest + 16).
Proof.
  intros H u. subst u.
  destruct (uuid_wire_halves b H) as (Hh & Hl & Hb).
  split; [|split].
  - unfold PyUUID_of_bytes. rewrite H. reflexivity.
  - apply UUID_encode_bytes; exact H.
  - rewrite UUID_decode_wire by assumption.
    rewrite !rev_involutive, Hb. reflexivity.
Qed.

Lemma UUID_row_binary_self_inverse_witness :
  len uuid_example = 16 /\
  UUID__to_row_binary (VUUID (mkUUID (int_from_bytes_big uuid_example) unknown)) []
    = Ok [x77; x66; x55; x44; x33; x22; x11; x00; xff; xee; xdd; xcc; xbb; xaa; x99; x88].
Proof.
  split; [reflexivity|].
  exact (proj1 (proj2 (UUID_row_binary_self_inverse uuid_example [] [] eq_refl))).
Defined.

Lemma slice_length_le {A} (l : list A) (i w : Z) :
  0 <= w -> len (slice l i (i + w)) <= w.
Proof.
  intros Hw. unfold slice, slice_index, len.
  rewrite length_firstn, length_skipn.
  destruct (i <? 0) eqn:Ei; destruct (i + w <? 0) eqn:Ej; lia.
Qed.

Lemma pow256_8 : 256 ^ 8 = 2 ^ 64.
Proof. reflexivity. Qed.

Lemma word64_at_range (source : bytes) (p : Z) : 0 <= word64_at source p < 2 ^ 64.
Proof.
  unfold word64_at.
  pose proof (int_from_bytes_little_range (slice source p (p + 8))) as H.
  pose proof (slice_length_le source p 8 ltac:(lia)) as Hl.
  pose proof (len_nonneg (slice source p (p + 8))) as Hn.
  assert (256 ^ len (slice source p (p + 8)) <= 256 ^ 8)
    by (apply Z.pow_le_mono_r; lia).
  rewrite <- pow256_8. lia.
Qed.

Lemma int_from_bytes_little_app (a b : bytes) :
  int_from_bytes_little (a ++ b)
  = int_from_bytes_little a + 256 ^ len a * int_from_bytes_little b.
Proof.
  induction a as [|x a IH]; cbn [app int_from_bytes_little].
  - change (len (@nil byte)) with 0. rewrite Z.pow_0_r. lia.
  - rewrite IH.
    replace (len (x :: a)) with (Z.succ (len a))
      by (unfold len; cbn [List.length]; lia).
    rewrite Z.pow_succ_r by apply len_nonneg. ring.
Qed.

(** [UUID(bytes=hi.to_bytes(8, 'big') + lo.to_bytes(8, 'big'))] has the
    integer [hi * 2^64 + lo]. *)
Lemma UUID_of_two_words (hi lo : Z) :
  0 <= hi < 2 ^ 64 -> 0 <= lo < 2 ^ 64 ->
  (high <- int_to_bytes_big hi 8 ;;
   low <- int_to_bytes_big lo 8 ;;
   PyUUID_of_bytes (high ++ low))
  = Ok (mkUUID (hi * 2 ^ 64 + lo) unknown).
Proof.
  intros Hh Hl.
  rewrite !int_to_bytes_big_ok by (change (Z.of_nat 8) with 8; rewrite pow256_8; lia).
  cbn [bind]. unfold PyUUID_of_bytes.
  rewrite len_app, !len_rev. unfold len at 1 2. rewrite !le_digits_length.
  change (Z.of_nat 8 + Z.of_nat 8 =? 16) with true. cbv iota.
  unfold int_from_bytes_big.
  rewrite rev_app_distr, !rev_involutive, int_from_bytes_little_app.
  unfold len. rewrite le_digits_length, !int_from_bytes_le_digits.
  change (Z.of_nat 8) with 8. rewrite pow256_8.
  rewrite !Z.mod_small by lia. do 2 f_equal. ring.
Qed.

(** [UUID._from_row_binary] returns on every buffer and position. *)
Lemma UUID__from_row_binary_value (source : bytes) (loc : Z) :
  UUID__from_row_binary source loc
  = Ok (VUUID (mkUUID (word64_at source loc * 2 ^ 64 + word64_at source (loc + 8))
                      unknown),
        loc + 16).
Proof.
  unfold UUID__from_row_binary.
  pose proof (word64_at_range source loc) as Hh.
  pose proof (word64_at_range source (loc + 8)) as Hl.
  unfold word64_at in *.
  replace (loc + 8 + 8) with (loc + 16) in * by lia.
  pose proof (UUID_of_two_words _ _ Hh Hl) as E.
  destruct (int_to_bytes_big (int_from_bytes_little (slice source loc (loc + 8))) 8)
    as [high|] eqn:E1; cbn [bind] in *; [|discriminate].
  destruct (int_to_bytes_big (int_from_bytes_little (slice source (loc + 8) (loc + 16))) 8)
    as [low|] eqn:E2; cbn [bind] in *; [|discriminate].
  rewrite E. reflexivity.
Qed.

(** [hi << 64 | lo] is [hi * 2^64 + lo] when [lo] is a 64-bit word. *)
Lemma shift_or_words (hi lo : Z) :
  0 <= lo < 2 ^ 64 ->
  Z.lor (Z.shiftl hi 64) lo = hi * 2 ^ 64 + lo.
Proof.
  intros Hl.
  assert (Hland : Z.land (Z.shiftl hi 64) lo = 0).
  { apply Z.bits_inj'. intros n Hn.
    rewrite Z.land_spec, Z.bits_0.
    destruct (Z.lt_ge_cases n 64) as [Hlt|Hge].
    - rewrite Z.shiftl_spec_low by lia. reflexivity.
    - replace (Z.testbit lo n) with false; [apply andb_false_r|].
      symmetry. destruct (Z.eq_dec lo 0) as [->|Hz]; [apply Z.bits_0|].
      apply Z.bits_above_log2; [lia|].
      assert (2 ^ 64 <= 2 ^ n) by (apply Z.pow_le_mono_r; lia).
      apply Z.log2_lt_pow2; lia. }
  rewrite <- Z.lxor_lor by exact Hland.
  rewrite <- Z.add_nocarry_lxor by exact Hland.
  rewrite Z.shiftl_mul_pow2 by lia. reflexivity.
Qed.

Lemma range_length (n : Z) : List.length (range n) = Z.to_nat n.
Proof. unfold range. rewrite length_map, length_seq. reflexivity. Qed.

Lemma nth_map_range {A} (f : Z -> A) (n : Z) (k : nat) (d : A) :
  (k < Z.to_nat n)%nat -> nth k (map f (range n)) d = f (Z.of_nat k).
Proof.
  intros H. unfold range. rewrite map_map.
  rewrite (nth_indep _ d (f (Z.of_nat 0))) by (rewrite length_map, length_seq; exact H).
  rewrite (map_nth (fun x => f (Z.of_nat x)) (seq 0 (Z.to_nat n)) 0%nat k).
  rewrite seq_nth by exact H. reflexivity.
Qed.

Lemma unpack_from_le_Q_ok (k : Z) (source : bytes) (loc : Z) :
  0 <= loc -> 0 <= k -> loc + 8 * k <= len source ->
  unpack_from_le_Q k source loc
  = Ok (map (fun i => word64_at source (loc + 8 * i)) (range k)).
Proof.
  intros Hloc Hk Hlen. unfold unpack_from_le_Q.
  assert (E1 : (k <? 0) = false) by lia.
  assert (E2 : (loc <? 0) = false) by lia.
  assert (E3 : (len source - loc <? 8 * k) = false) by lia.
  cbv zeta. rewrite E1, E2, E2, E3. reflexivity.
Qed.

Lemma py_eqb_VList (x y : list object) :
  py_eqb (VList x) (VList y) = list_eqb py_eqb x y.
Proof.
  revert y; induction x as [|a x IH]; intros [|b y]; try reflexivity.
  cbn [list_eqb]. rewrite <- IH. reflexivity.
Qed.

Lemma py_eqb_VTuple (x y : list object) :
  py_eqb (VTuple x) (VTuple y) = list_eqb py_eqb x y.
Proof.
  revert y; induction x as [|a x IH]; intros [|b y]; try reflexivity.
  cbn [list_eqb]. rewrite <- IH. reflexivity.
Qed.

Lemma fast_uuid_row (source : bytes) (loc k i : Z) :
  0 <= i < k ->
  fast_uuid (map (fun j => word64_at source (loc + 8 * j)) (range (k * 2))) i
  = native_uuid source loc i.
Proof.
  intros Hi. unfold fast_uuid, native_uuid. cbv zeta.
  rewrite (Z.shiftl_mul_pow2 i 1) by lia. change (2 ^ 1) with 2.
  rewrite !nth_map_range by lia.
  rewrite !Z2Nat.id by lia.
  replace (loc + 8 * (i * 2)) with (loc + 16 * i) by lia.
  replace (loc + 8 * (i * 2 + 1)) with (loc + 16 * i + 8) by lia.
  reflexivity.
Qed.

Lemma map_ext_range {A} (f g : Z -> A) (n : Z) :
  (forall i, 0 <= i < n -> f i = g i) -> map f (range n) = map g (range n).
Proof.
  intros H. apply map_ext_in. intros i Hi. apply H.
  unfold range in Hi. apply in_map_iff in Hi. destruct Hi as (k & <- & Hk).
  apply in_seq in Hk. lia.
Qed.

Lemma UUID_from_native_value (source : bytes) (loc num_rows : Z) (must_swap : bool) :
  0 <= loc -> 0 <= num_rows -> loc + 16 * num_rows <= len source ->
  UUID_from_native source loc num_rows must_swap
  = Ok (VList (map (native_uuid source loc) (range num_rows)), loc + 16 * num_rows).
Proof.
  intros Hloc Hn Hlen. unfold UUID_from_native.
  rewrite unpack_from_le_Q_ok by lia. cbn [bind].
  rewrite (map_ext_range _ (native_uuid source loc))
    by (intros i Hi; apply fast_uuid_row; exact Hi).
  do 3 f_equal. lia.
Qed.

Lemma range_succ (n : nat) :
  range (Z.of_nat (S n)) = 0 :: map Z.succ (range (Z.of_nat n)).
Proof.
  unfold range. rewrite !Nat2Z.id. cbn [seq map]. f_equal.
  rewrite <- seq_shift, !map_map. apply map_ext. intros; lia.
Qed.

(** Row by row, the same bytes give the same integers. *)
Lemma UUID_row_by_row (source : bytes) (n : nat) (loc : Z) :
  exists rows,
    row_by_row UUID__from_row_binary n source loc
      = Ok (rows, loc + 16 * Z.of_nat n) /\
    list_eqb py_eqb (map (native_uuid source loc) (range (Z.of_nat n))) rows = true.
Proof.
  revert loc; induction n as [|n IH]; intros loc.
  - exists []. split; [cbn; f_equal; f_equal; lia | reflexivity].
  - destruct (IH (loc + 16)) as (rows & Hrows & Heq).
    eexists. cbn [row_by_row].
    rewrite UUID__from_row_binary_value, Hrows. split.
    + do 2 f_equal. lia.
    + rewrite range_succ. cbn [map list_eqb]. apply andb_true_intro. split.
      * unfold native_uuid. cbn [py_eqb int].
        pose proof (word64_at_range source (loc + 8)).
        replace (loc + 16 * 0) with loc by lia.
        rewrite shift_or_words by assumption. apply Z.eqb_refl.
      * rewrite map_map.
        rewrite (map_ext _ (native_uuid source (loc + 16))); [exact Heq|].
        intros i. unfold native_uuid.
        replace (loc + 16 * Z.succ i) with (loc + 16 + 16 * i) by lia.
        reflexivity.
Qed.

(** C4.  On a buffer that holds [num_rows] consecutive 16-byte UUID values at
    [loc], without byte swap, the bulk decode returns [num_rows] identifiers,
    row [i] having the integer [high << 64 | low] of the two little-endian
    64-bit words at [loc + 16 * i]; they are equal, one by one, to what the
    row-oriented decode returns when applied sequentially to the same bytes;
    and both leave the position at [loc + 16 * num_rows]. *)
Theorem UUID_from_native_refines_rows (source : bytes) (loc num_rows : Z) :
  0 <= loc -> 0 <= num_rows -> loc + 16 * num_rows <= len source ->
  exists column rows,
    UUID_from_native source loc num_rows false
      = Ok (VList column, loc + 16 * num_rows) /\
    len column = num_rows /\
    (forall i, 0 <= i < num_rows ->
       exists u, nth (Z.to_nat i) column VNone = VUUID u /\
                 int u = Z.lor (Z.shiftl (word64_at source (loc + 16 * i)) 64)
                               (word64_at source (loc + 16 * i + 8))) /\
    row_by_row UUID__from_row_binary (Z.to_nat num_rows) source loc
      = Ok (rows, loc + 16 * num_rows) /\
    py_eqb (VList column) (VList rows) = true.
Proof.
  intros Hloc Hn Hlen.
  destruct (UUID_row_by_row source (Z.to_nat num_rows) loc) as (rows & Hrows & Heq).
  rewrite Z2Nat.id in Hrows, Heq by lia.
  exists (map (native_uuid source loc) (range num_rows)), rows.
  split; [apply UUID_from_native_value; assumption|].
  split; [unfold len; rewrite length_map, range_length; lia|].
  split; [|split; [exact Hrows | rewrite py_eqb_VList; exact Heq]].
  intros i Hi. eexists. split.
  - rewrite nth_map_range by lia. rewrite Z2Nat.id by lia. reflexivity.
  - reflexivity.
Qed.

Lemma UUID_from_native_refines_rows_witness :
  exists column rows,
    UUID_from_native (uuid_wire uuid_example ++ uuid_wire uuid_example) 0 2 false
      = Ok (VList column, 0 + 16 * 2) /\
    len column = 2 /\
    (forall i, 0 <= i < 2 ->
       exists u, nth (Z.to_nat i) column VNone = VUUID u /\
                 int u = Z.lor (Z.shiftl (word64_at (uuid_wire uuid_example ++ uuid_wire uuid_example)
                                                    (0 + 16 * i)) 64)
                               (word64_at (uuid_wire uuid_example ++ uuid_wire uuid_example)
                                          (0 + 16 * i + 8))) /\
    row_by_row UUID__from_row_binary (Z.to_nat 2)
               (uuid_wire uuid_example ++ uuid_wire uuid_example) 0
      = Ok (rows, 0 + 16 * 2) /\
    py_eqb (VList column) (VList rows) = true.
Proof.
  apply (UUID_from_native_refines_rows
           (uuid_wire uuid_example ++ uuid_wire uuid_example) 0 2).
  - lia.
  - lia.
  - vm_compute. discriminate.
Defined.

(** The bulk decode of one identifier, on the wire bytes of
    [00112233-4455-6677-8899-aabbccddeeff]. *)
Example UUID_from_native_example :
  UUID_from_native (uuid_wire uuid_example) 0 1 false
  = Ok (VList [VUUID (mkUUID 0x00112233445566778899aabbccddeeff unsafe)], 16).
Proof. vm_compute. reflexivity. Qed.

(* ================================================================== *)
(** ** Truncated input                                                  *)
(* ================================================================== *)

Lemma slice_past_end {A} (l : list A) (i j : Z) :
  0 <= i -> len l <= j -> len (slice l i j) = Z.max 0 (len l - i).
Proof.
  intros Hi Hj. pose proof (len_nonneg l).
  rewrite slice_inside by lia. unfold len in *.
  rewrite length_firstn, length_skipn. lia.
Qed.

Lemma FixedString_row_initial (bytes_decode : string -> bytes -> result pystr)
    (size : Z) (source : bytes) (loc : Z) :
  FixedString__from_row_binary bytes_decode FixedString_initial size source loc
  = Ok (VBytes (slice source loc (loc + size)), loc + size).
Proof. reflexivity. Qed.

(** C9, as the specification states it, fails: on the empty buffer the UUID
    decode returns the identifier 0 and the position 16. *)
Lemma underrun_not_detected : ~ fails_on_underrun UUID__from_row_binary 16.
Proof.
  intros H. destruct (H [] 0) as [e He]; [lia | unfold len; simpl; lia |].
  vm_compute in He. discriminate He.
Qed.

(** C9, amended.  A row-oriented decode of a UUID, or of a fixed-width
    string under the raw strategy, at a position with fewer bytes left than
    the value takes does not raise: the UUID is built from the two words that
    the shorter slices spell, the fixed string is the shorter slice, and the
    position advances by the full width. *)
Theorem row_decode_tolerates_truncation
    (read_leb128 : bytes -> Z -> result (Z * Z))
    (bytes_decode : string -> bytes -> result pystr)
    (size : Z) (source : bytes) (loc : Z) :
  0 <= loc ->
  (len source < loc + 16 ->
   decode_one read_leb128 bytes_decode FixedString_initial UUID source loc
   = Ok (VUUID (mkUUID (word64_at source loc * 2 ^ 64 + word64_at source (loc + 8))
                       unknown),
         loc + 16)) /\
  (0 < size -> len source < loc + size ->
   exists b,
     decode_one read_leb128 bytes_decode FixedString_initial (FixedString size) source loc
     = Ok (VBytes b, loc + size) /\
     b = slice source loc (len source) /\ len b < size).
Proof.
  intros Hloc. split; [intros Hlen | intros Hsize Hlen].
  - apply UUID__from_row_binary_value.
  - exists (slice source loc (loc + size)).
    unfold decode_one. cbn [from_row_binary call_source_loc].
    rewrite FixedString_row_initial.
    pose proof (len_nonneg source) as Hn.
    assert (E : slice source loc (loc + size) = slice source loc (len source)).
    { rewrite !slice_inside by lia. rewrite (Z.min_r (loc + size)) by lia.
      rewrite (Z.min_r (len source) (len source)) by lia. reflexivity. }
    split; [reflexivity|]. split; [exact E|].
    rewrite E, slice_past_end by lia. lia.
Qed.

Lemma row_decode_tolerates_truncation_witness :
  0 <= 0 /\ len [x01; x02] < 0 + 16 /\ 0 < 4 /\ len [x01; x02] < 0 + 4 /\
  decode_one (fun _ _ => Raise IndexError) codec_decode FixedString_initial
             UUID [x01; x02] 0
  = Ok (VUUID (mkUUID (word64_at [x01; x02] 0 * 2 ^ 64 + word64_at [x01; x02] (0 + 8))
                      unknown),
        0 + 16) /\
  exists b,
    decode_one (fun _ _ => Raise IndexError) codec_decode FixedString_initial
               (FixedString 4) [x01; x02] 0
    = Ok (VBytes b, 0 + 4) /\
    b = slice [x01; x02] 0 (len [x01; x02]) /\ len b < 4.
Proof.
  assert (H0 : 0 <= 0) by lia.
  assert (H1 : len [x01; x02] < 0 + 16) by (vm_compute; reflexivity).
  assert (H2 : 0 < 4) by lia.
  assert (H3 : len [x01; x02] < 0 + 4) by (vm_compute; reflexivity).
  destruct (row_decode_tolerates_truncation
              (fun _ _ => Raise IndexError) codec_decode 4 [x01; x02] 0 H0)
    as [Hu Hf].
  exact (conj H0 (conj H1 (conj H2 (conj H3 (conj (Hu H1) (Hf H2 H3)))))).
Defined.

(** Two bytes where a UUID takes sixteen: the identifier is 0x0201 << 64. *)
Example UUID_row_truncated :
  UUID__from_row_binary [x01; x02] 0
  = Ok (VUUID (mkUUID (0x0201 * 2 ^ 64) unknown), 16).
Proof. vm_compute. reflexivity. Qed.

(* ================================================================== *)
(** ** FixedString                                                      *)
(* ================================================================== *)

(** C10.  Whatever output strategy the class is configured with, the bulk
    decode of a fixed-width string column returns the tuple of the raw
    [size]-byte slices, row [i] being [source[loc + i*size : loc + i*size + size]],
    and advances the position by [size * num_rows]: the class attributes
    [_transform], [_encode_error] and [_encoding], which the row-oriented
    decode consults, have no effect on the bulk path. *)
Theorem FixedString_from_native_raw_slices
    (cls : FixedString_class) (size : Z) (source : bytes)
    (loc num_rows : Z) (must_swap : bool) :
  0 <= num_rows ->
  exists column,
    FixedString_from_native cls size source loc num_rows must_swap
      = Ok (VTuple column, loc + size * num_rows) /\
    len column = num_rows /\
    (forall i, 0 <= i < num_rows ->
       nth (Z.to_nat i) column VNone
       = VBytes (slice source (loc + i * size) (loc + i * size + size))) /\
    (forall cls' : FixedString_class,
       FixedString_from_native cls' size source loc num_rows must_swap
       = FixedString_from_native cls size source loc num_rows must_swap) /\
    (0 <= loc -> 0 <= size -> loc + size * num_rows <= len source ->
     forall i, 0 <= i < num_rows ->
       len (slice source (loc + i * size) (loc + i * size + size)) = size).
Proof.
  intros Hn. eexists. split; [reflexivity|].
  split; [unfold len; rewrite length_map, range_length; lia|].
  split; [|split].
  - intros i Hi. rewrite nth_map_range by lia. rewrite Z2Nat.id by lia. reflexivity.
  - reflexivity.
  - intros Hloc Hsize Hlen i Hi. rewrite slice_length by nia. lia.
Qed.

Lemma FixedString_from_native_raw_slices_witness :
  0 <= 2 /\
  exists column,
    FixedString_from_native (fixed_string_format "hex" "utf8" "hex" FixedString_initial)
                            2 [x61; x62; xff; xfe] 0 2 false
      = Ok (VTuple column, 0 + 2 * 2) /\
    len column = 2 /\
    (forall i, 0 <= i < 2 ->
       nth (Z.to_nat i) column VNone
       = VBytes (slice [x61; x62; xff; xfe] (0 + i * 2) (0 + i * 2 + 2))).
Proof.
  assert (H : 0 <= 2) by lia.
  destruct (FixedString_from_native_raw_slices
              (fixed_string_format "hex" "utf8" "hex" FixedString_initial)
              2 [x61; x62; xff; xfe] 0 2 false H)
    as (column & H1 & H2 & H3 & _).
  exact (conj H (ex_intro _ column (conj H1 (conj H2 H3)))).
Defined.

(** The three strategies on the bulk path, on the bytes [61 62 ff fe]. *)
Example FixedString_from_native_example :
  let source := [x61; x62; xff; xfe] in
  let raw := Ok (VTuple [VBytes [x61; x62]; VBytes [xff; xfe]], 4) in
  FixedString_from_native FixedString_initial 2 source 0 2 false = raw /\
  FixedString_from_native (fixed_string_format "decode" "utf8" "hex" FixedString_initial)
                          2 source 0 2 false = raw /\
  FixedString_from_native (fixed_string_format "hex" "utf8" "hex" FixedString_initial)
                          2 source 0 2 false = raw.
Proof. repeat split. Qed.

(** On the row-oriented path the strategy does apply: the same two bytes
    come back as text under the decode-as-text strategy. *)
Example FixedString_row_decode_example :
  FixedString__from_row_binary codec_decode
    (fixed_string_format "decode" "utf8" "hex" FixedString_initial)
    2 [x61; x62; xff; xfe] 0
  = Ok (VStr (str "ab"), 2).
Proof. vm_compute. reflexivity. Qed.

(** Under the hex strategy the attribute is [staticmethod(_hex_string)], a
    function of [(cls, value)] that the row-oriented decode calls with the
    slice alone. *)
Example FixedString_row_hex_example :
  FixedString__from_row_binary codec_decode
    (fixed_string_format "hex" "utf8" "hex" FixedString_initial)
    2 [x61; x62; xff; xfe] 0
  = Raise TypeError.
Proof. vm_compute. reflexivity. Qed.

Lemma fixed_string_format_decode (encoding encoding_error : string)
    (cls : FixedString_class) :
  fixed_string_format "decode" encoding encoding_error cls
  = {| _encoding := encoding;
       _transform := classmethod _fixed_string_decode;
       _encode_error := if String.eqb encoding_error "hex"
                        then classmethod _hex_string
                        else classmethod lambda_binary_data |}.
Proof. reflexivity. Qed.

(** C8 at its failing input.  Under the decode-as-text strategy, a slice that
    is not valid text in the configured encoding comes back as its hex
    rendering when the error policy is ['hex']; under any other policy the
    fallback is [classmethod(lambda cls: '<binary data>')], which takes
    [cls] only, so the call [cls._encode_error(value)] raises TypeError and
    the error reaches the caller. *)
Theorem FixedString_decode_fallback
    (bytes_decode : string -> bytes -> result pystr)
    (encoding encoding_error : string) (cls : FixedString_class)
    (size : Z) (source : bytes) (loc : Z) :
  bytes_decode encoding (slice source loc (loc + size)) = Raise UnicodeDecodeError ->
  (String.eqb encoding_error "hex" = true ->
   FixedString__from_row_binary bytes_decode
     (fixed_string_format "decode" encoding encoding_error cls) size source loc
   = Ok (VStr (map (fun c => Z.of_nat (nat_of_ascii c))
                   (hexlify (slice source loc (loc + size)))),
         loc + size)) /\
  (String.eqb encoding_error "hex" = false ->
   FixedString__from_row_binary bytes_decode
     (fixed_string_format "decode" encoding encoding_error cls) size source loc
   = Raise TypeError).
Proof.
  intros Hdec. rewrite fixed_string_format_decode.
  split; intros Hpol; rewrite Hpol;
    unfold FixedString__from_row_binary, call__transform, call__encode_error,
           run_decode;
    cbn [_transform _encode_error _encoding positional parameters List.length
         Nat.eqb];
    rewrite Hdec; reflexivity.
Qed.

Lemma FixedString_decode_fallback_witness :
  codec_decode "utf8" (slice [xff] 0 (0 + 1)) = Raise UnicodeDecodeError /\
  String.eqb "ignore" "hex" = false /\
  FixedString__from_row_binary codec_decode
    (fixed_string_format "decode" "utf8" "ignore" FixedString_initial) 1 [xff] 0
  = Raise TypeError.
Proof.
  assert (H1 : codec_decode "utf8" (slice [xff] 0 (0 + 1)) = Raise UnicodeDecodeError)
    by (vm_compute; reflexivity).
  assert (H2 : String.eqb "ignore" "hex" = false) by reflexivity.
  exact (conj H1 (conj H2
           (proj2 (FixedString_decode_fallback codec_decode "utf8" "ignore"
                     FixedString_initial 1 [xff] 0 H1) H2))).
Defined.

(** The hex policy on the same byte. *)
Example FixedString_decode_fallback_hex :
  FixedString__from_row_binary codec_decode
    (fixed_string_format "decode" "utf8" "hex" FixedString_initial) 1 [xff] 0
  = Ok (VStr (str "ff"), 1).
Proof. vm_compute. reflexivity. Qed.

(* ================================================================== *)
(** ** Nothing                                                          *)
(* ================================================================== *)

(** C7 at its failing input.  [Nothing._from_row_binary] is declared
    [@staticmethod] and still lists [self]: given its three arguments it
    returns [(None, loc)], but [decode_one(buffer, pos)] passes two, so the
    call raises TypeError on every buffer and position.  The encode half
    holds: [_to_row_binary] leaves the output buffer as it is. *)
Theorem Nothing_decode_one_raises
    (read_leb128 : bytes -> Z -> result (Z * Z)) (to_leb128 : Z -> bytes)
    (bytes_decode : string -> bytes -> result pystr)
    (str_encode : string -> pystr -> result bytes)
    (cls : FixedString_class)
    (self value : object) (source dest : bytes) (loc : Z) :
  decode_one read_leb128 bytes_decode cls Nothing source loc = Raise TypeError /\
  Nothing__from_row_binary self source loc = Ok (VNone, loc) /\
  encode_one to_leb128 str_encode cls Nothing value dest = Ok dest.
Proof. repeat split. Qed.

(* ================================================================== *)
(** ** Array: construction                                              *)
(* ================================================================== *)

Lemma no_DriverError_bind {A B} (r : result A) (k : A -> result B) :
  no_DriverError r -> (forall a, no_DriverError (k a)) -> no_DriverError (bind r k).
Proof.
  intros Hr Hk. destruct r as [a|e]; cbn [bind]; [apply Hk | exact Hr].
Qed.

Lemma Array_decode_loop_no_DriverError (conv : decoder) (n : nat)
    (source : bytes) (loc : Z) :
  (forall s l, no_DriverError (call_source_loc conv s l)) ->
  no_DriverError (Array_decode_loop conv n source loc).
Proof.
  intros Hconv. revert loc; induction n as [|n IH]; intros loc; cbn [Array_decode_loop].
  - exact I.
  - apply no_DriverError_bind; [apply Hconv|]. intros [v l].
    apply no_DriverError_bind; [apply IH|]. intros [vs l']. exact I.
Qed.

Lemma Array_native_loop_no_DriverError
    (conv : bytes -> Z -> Z -> bool -> result (object * Z))
    (conv_py : option (object -> result object))
    (source : bytes) (must_swap : bool) (offsets : list Z) (last loc : Z) :
  (forall s l c m, no_DriverError (conv s l c m)) ->
  (forall f v, conv_py = Some f -> no_DriverError (f v)) ->
  no_DriverError (Array_native_loop conv conv_py source must_swap offsets last loc).
Proof.
  intros Hconv Hpy. revert last loc.
  induction offsets as [|offset rest IH]; intros last loc; cbn [Array_native_loop].
  - exact I.
  - apply no_DriverError_bind; [apply Hconv|]. intros [v l].
    apply no_DriverError_bind.
    + destruct conv_py as [f|]; [apply (Hpy f); reflexivity | exact I].
    + intros v'. apply no_DriverError_bind; [apply IH|]. intros [c l']. exact I.
Qed.

Lemma Array_offsets_no_DriverError (byteorder : byteorder) (source : bytes)
    (loc num_rows : Z) (must_swap : bool) :
  no_DriverError (Array_offsets byteorder source loc num_rows must_swap).
Proof.
  unfold Array_offsets, array_Q_frombytes.
  destruct (len (slice source loc (loc + num_rows * 8)) mod 8 =? 0); exact I.
Qed.

(** C5.  When the element type of an array resolves to an array,
    [Array.__init__] raises the configuration error [DriverError]; when it
    resolves to any other type, the constructor returns the array over it.
    The decodes of an array raise no configuration error of their own: a
    [DriverError] can leave them only if the length prefix or the element
    codec raised it. *)
Theorem Array_nesting_rejected_at_construction
    (get_from_name : string -> result ClickHouseType)
    (type_def : TypeDef) (name : string) (element_type : ClickHouseType) :
  first_value type_def = Ok name ->
  get_from_name name = Ok element_type ->
  (isinstance_Array element_type = true ->
   Array__init__ get_from_name type_def
   = Raise (DriverError "Nested arrays not supported")) /\
  (isinstance_Array element_type = false ->
   Array__init__ get_from_name type_def = Ok (Array element_type)) /\
  (forall read_leb128 conv source loc,
     (forall s l, no_DriverError (read_leb128 s l)) ->
     (forall s l, no_DriverError (call_source_loc conv s l)) ->
     no_DriverError (Array__from_row_binary read_leb128 conv source loc)) /\
  (forall byteorder conv conv_py source loc num_rows must_swap,
     (forall s l c m, no_DriverError (conv s l c m)) ->
     (forall f v, conv_py = Some f -> no_DriverError (f v)) ->
     no_DriverError
       (Array_from_native byteorder conv conv_py source loc num_rows must_swap)).
Proof.
  intros Hname Hget.
  split; [|split; [|split]].
  - intros Harr. unfold Array__init__. rewrite Hname. cbn [bind].
    rewrite Hget. cbn [bind]. rewrite Harr. reflexivity.
  - intros Harr. unfold Array__init__. rewrite Hname. cbn [bind].
    rewrite Hget. cbn [bind]. rewrite Harr. reflexivity.
  - intros read_leb128 conv source loc Hleb Hconv. unfold Array__from_row_binary.
    apply no_DriverError_bind; [apply Hleb|]. intros [size l].
    apply no_DriverError_bind; [apply Array_decode_loop_no_DriverError; exact Hconv|].
    intros [vs l']. exact I.
  - intros byteorder conv conv_py source loc num_rows must_swap Hconv Hpy.
    unfold Array_from_native.
    apply no_DriverError_bind; [apply Array_offsets_no_DriverError|]. intros offsets.
    apply no_DriverError_bind;
      [apply Array_native_loop_no_DriverError; assumption|].
    intros [c l']. exact I.
Qed.

Lemma Array_nesting_rejected_at_construction_witness :
  first_value (mkTypeDef ["Array(UUID)"%string] "(Array(UUID))") = Ok "Array(UUID)"%string /\
  example_registry "Array(UUID)" = Ok (Array UUID) /\
  isinstance_Array (Array UUID) = true /\
  Array__init__ example_registry (mkTypeDef ["Array(UUID)"%string] "(Array(UUID))")
  = Raise (DriverError "Nested arrays not supported").
Proof.
  assert (H1 : first_value (mkTypeDef ["Array(UUID)"%string] "(Array(UUID))")
               = Ok "Array(UUID)"%string) by reflexivity.
  assert (H2 : example_registry "Array(UUID)" = Ok (Array UUID)) by reflexivity.
  assert (H3 : isinstance_Array (Array UUID) = true) by reflexivity.
  exact (conj H1 (conj H2 (conj H3
           (proj1 (Array_nesting_rejected_at_construction example_registry
                     (mkTypeDef ["Array(UUID)"%string] "(Array(UUID))")
                     "Array(UUID)" (Array UUID) H1 H2) H3)))).
Defined.

(** An array of fixed strings is constructed. *)
Example Array__init__FixedString :
  Array__init__ example_registry (mkTypeDef ["FixedString(2)"%string] "(FixedString(2))")
  = Ok (Array (FixedString 2)).
Proof. reflexivity. Qed.

(* ================================================================== *)
(** ** Map                                                              *)
(* ================================================================== *)

Lemma Map_encode_loop_key_twice (key_bytes value_bytes : object -> bytes)
    (items : list (object * object)) (ret : bytes) :
  Map_encode_loop (def_value (fun k => Ok (VBytes (key_bytes k))))
                  (def_value (fun k => Ok (VBytes (value_bytes k)))) items ret
  = Ok (ret ++ flat_map (fun kv => key_bytes (fst kv) ++ value_bytes (fst kv)) items).
Proof.
  revert ret; induction items as [|[k v] items IH]; intros ret;
    cbn [Map_encode_loop flat_map].
  - rewrite app_nil_r. reflexivity.
  - cbn [call_value bind bytearray_extend fst]. rewrite IH, <- !app_assoc. reflexivity.
Qed.

(** C2 at its failing input.  [Map._to_row_binary] does not write what the
    specification asks.  Called as [encode_one(value, out_buffer)] it raises
    TypeError, since it takes no [dest].  Called with the mapping alone, it
    raises TypeError on the first pair when the key codec appends to a
    [dest], as the codecs of this module do; and with sub-codecs that return
    their bytes it writes, for each pair, the key by the key codec and then
    the key again by the value codec, without a length prefix: the values of
    the mapping are never encoded. *)
Theorem Map_to_row_binary_encodes_key_twice
    (to_leb128 : Z -> bytes) (str_encode : string -> pystr -> result bytes)
    (cls : FixedString_class) (key_type value_type : ClickHouseType)
    (key_bytes value_bytes : object -> bytes)
    (key value : object) (items : list (object * object)) (dest : bytes)
    (body : object -> bytes -> result bytes) (value_to : encoder) :
  encode_one to_leb128 str_encode cls (Map key_type value_type) (VDict items) dest
    = Raise TypeError /\
  Map__to_row_binary (def_value_dest body) value_to (VDict ((key, value) :: items))
    = Raise TypeError /\
  Map__to_row_binary (def_value (fun k => Ok (VBytes (key_bytes k))))
                     (def_value (fun k => Ok (VBytes (value_bytes k)))) (VDict items)
    = Ok (VBytes (flat_map (fun kv => key_bytes (fst kv) ++ value_bytes (fst kv)) items)).
Proof.
  split; [reflexivity|]. split; [reflexivity|].
  unfold Map__to_row_binary. cbv zeta.
  rewrite Map_encode_loop_key_twice. reflexivity.
Qed.

(** The mapping [{1: 2}] over one-byte codecs: the code returns [01 01];
    the specification asks for the prefix, the key and the value. *)
Example Map_to_row_binary_example :
  Map__to_row_binary one_byte_to_row_binary one_byte_to_row_binary
                     (VDict [(VInt 1, VInt 2)])
    = Ok (VBytes [x01; x01]) /\
  map_wire_expected (fun n => [byte_of_Z n])
                    (fun v => match v with VInt z => [byte_of_Z z] | _ => [] end)
                    (fun v => match v with VInt z => [byte_of_Z z] | _ => [] end)
                    [(VInt 1, VInt 2)]
    = [x01; x01; x02].
Proof. split; vm_compute; reflexivity. Qed.

(** [Map._from_row_binary] reads what the specification asks the encode to
    write, and does not read what the encode writes. *)
Example Map_from_row_binary_example :
  Map__from_row_binary example_read_leb128
                       one_byte_from_row_binary one_byte_from_row_binary
                       [x01; x01; x02] 0
    = Ok (VDict [(VInt 1, VInt 2)], 3) /\
  Map__from_row_binary example_read_leb128
                       one_byte_from_row_binary one_byte_from_row_binary
                       [x01; x01] 0
    = Raise IndexError.
Proof. split; vm_compute; reflexivity. Qed.

(** The same call over the UUID codec of this module. *)
Example Map_to_row_binary_UUID :
  Map__to_row_binary (def_value_dest UUID__to_row_binary)
                     (def_value_dest UUID__to_row_binary)
                     (VDict [(VUUID (mkUUID 1 unknown), VUUID (mkUUID 2 unknown))])
  = Raise TypeError.
Proof. reflexivity. Qed.

(* ================================================================== *)
(** ** Array: bulk decode                                               *)
(* ================================================================== *)

Lemma firstn_skipn_slices {A} (l : list A) (i j k : Z) :
  0 <= i <= j -> j <= k -> k <= len l ->
  firstn (Z.to_nat (j - i)) (slice l i k) = slice l i j /\
  skipn (Z.to_nat (j - i)) (slice l i k) = slice l j k.
Proof.
  intros Hij Hjk Hk.
  rewrite <- (slice_split l i j k) by lia.
  assert (Hlen : List.length (slice l i j) = Z.to_nat (j - i)).
  { pose proof (slice_length l i j ltac:(lia) ltac:(lia)) as H. unfold len in H. lia. }
  rewrite <- Hlen. split.
  - rewrite firstn_app, firstn_all, Nat.sub_diag. simpl. apply app_nil_r.
  - rewrite skipn_app, skipn_all, Nat.sub_diag. reflexivity.
Qed.

(** The items of the offsets column are the 8-byte slices of the buffer. *)
Lemma chunks_slices (n : nat) (source : bytes) (loc : Z) :
  0 <= loc -> loc + 8 * Z.of_nat n <= len source ->
  chunks n 8 (slice source loc (loc + 8 * Z.of_nat n))
  = map (fun i => slice source (loc + 8 * i) (loc + 8 * i + 8)) (range (Z.of_nat n)).
Proof.
  revert loc; induction n as [|n IH]; intros loc Hloc Hlen.
  - reflexivity.
  - rewrite range_succ. cbn [chunks map].
    destruct (firstn_skipn_slices source loc (loc + 8) (loc + 8 * Z.of_nat (S n)))
      as [Hf Hs]; try lia.
    replace (Z.to_nat (loc + 8 - loc)) with 8%nat in Hf, Hs by lia.
    rewrite Hf, Hs. f_equal.
    + f_equal; lia.
    + replace (loc + 8 * Z.of_nat (S n)) with (loc + 8 + 8 * Z.of_nat n) by lia.
      rewrite IH by lia. rewrite map_map. apply map_ext. intros i.
      f_equal; lia.
Qed.

(** [byteswap] turns an item read in one order into the item read in the
    other order. *)
Lemma byteswap64_int_from_bytes (host : byteorder) (b : bytes) :
  len b = 8 -> byteswap64 (int_from_bytes host b) = int_from_bytes (swapped host) b.
Proof.
  intros H. unfold byteswap64.
  assert (Hb : List.length b = 8%nat) by (apply length_of_len; exact H).
  assert (Hr : List.length (rev b) = 8%nat) by (rewrite length_rev; exact Hb).
  destruct host; cbn [int_from_bytes swapped].
  - rewrite <- Hb at 1. rewrite le_digits_int_from_bytes. reflexivity.
  - unfold int_from_bytes_big. rewrite <- Hr at 1.
    rewrite le_digits_int_from_bytes, rev_involutive. reflexivity.
Qed.

Lemma Array_offsets_value (host : byteorder) (source : bytes) (loc num_rows : Z)
    (must_swap : bool) :
  0 <= loc -> 0 <= num_rows -> loc + 8 * num_rows <= len source ->
  Array_offsets host source loc num_rows must_swap
  = Ok (map (offset_at host must_swap source loc) (range num_rows)).
Proof.
  intros Hloc Hn Hlen. unfold Array_offsets, array_Q_frombytes. cbv zeta.
  replace (loc + num_rows * 8) with (loc + 8 * num_rows) by lia.
  pose proof (slice_length source loc (loc + 8 * num_rows) ltac:(lia) Hlen) as Hl.
  rewrite Hl.
  replace (loc + 8 * num_rows - loc) with (num_rows * 8) by lia.
  rewrite Z.mod_mul by lia. cbn [Z.eqb bind].
  assert (Hq : (List.length (slice source loc (loc + 8 * num_rows)) / 8)%nat
               = Z.to_nat num_rows).
  { unfold len in Hl.
    replace (List.length (slice source loc (loc + 8 * num_rows)))
      with (Z.to_nat num_rows * 8)%nat by lia.
    apply Nat.div_mul. discriminate. }
  rewrite Hq.
  pose proof (chunks_slices (Z.to_nat num_rows) source loc Hloc) as Hc.
  rewrite Z2Nat.id in Hc by lia. rewrite Hc by lia.
  unfold offset_at. destruct must_swap; rewrite !map_map.
  - f_equal. apply map_ext_range. intros i Hi.
    apply byteswap64_int_from_bytes. rewrite slice_length by lia. lia.
  - reflexivity.
Qed.

Lemma Array_native_loop_rows
    (conv : bytes -> Z -> Z -> bool -> result (object * Z))
    (conv_py : option (object -> result object))
    (source : bytes) (must_swap : bool) (offsets : list Z) (last loc : Z)
    (column : list object) (loc' : Z) :
  Array_native_loop conv conv_py source must_swap offsets last loc = Ok (column, loc')
  <-> rows_decoded conv conv_py source must_swap loc (row_counts last offsets) column loc'.
Proof.
  revert last loc column loc'.
  induction offsets as [|offset rest IH]; intros last loc column loc';
    cbn [Array_native_loop row_counts].
  - split.
    + intros H. injection H as <- <-. constructor.
    + intros H. inversion H; subst. reflexivity.
  - split.
    + intros H.
      destruct (conv source loc (offset - last) must_swap) as [[val_list l1]|] eqn:E1;
        cbn [bind] in H; [|discriminate].
      fold (apply_to_python conv_py val_list) in H.
      destruct (apply_to_python conv_py val_list) as [row|] eqn:E2;
        cbn [bind] in H; [|discriminate].
      destruct (Array_native_loop conv conv_py source must_swap rest offset l1)
        as [[col l2]|] eqn:E3; cbn [bind] in H; [|discriminate].
      injection H as <- <-.
      econstructor; [exact E1 | exact E2 | apply IH; exact E3].
    + intros H. inversion H as [|? ? l1 ? ? val_list row col E1 E2 E3]; subst.
      rewrite E1. cbn [bind]. fold (apply_to_python conv_py val_list).
      rewrite E2. cbn [bind].
      apply IH in E3. rewrite E3. reflexivity.
Qed.

Lemma last_nonempty {A} (x : A) (l : list A) (d d' : A) :
  List.last (x :: l) d = List.last (x :: l) d'.
Proof.
  revert x; induction l as [|y l IH]; intros x; [reflexivity|].
  change (List.last (y :: l) d = List.last (y :: l) d'). apply IH.
Qed.

(** The counts add up to the last offset. *)
Lemma row_counts_sum (last : Z) (offsets : list Z) :
  sum (row_counts last offsets) = List.last offsets last - last.
Proof.
  revert last; induction offsets as [|offset rest IH]; intros last.
  - cbn. lia.
  - cbn [row_counts sum fold_right]. fold (sum (row_counts offset rest)).
    rewrite IH. destruct rest as [|o rest'].
    + cbn. lia.
    + change (List.last (offset :: o :: rest') last) with (List.last (o :: rest') last).
      rewrite (last_nonempty o rest' offset last). lia.
Qed.

Lemma row_counts_length (last : Z) (offsets : list Z) :
  List.length (row_counts last offsets) = List.length offsets.
Proof.
  revert last; induction offsets as [|o r IH]; intros last; cbn; [|rewrite IH]; reflexivity.
Qed.

(** Row [i] has [offset[i] - offset[i-1]] elements. *)
Lemma row_counts_nth (last : Z) (offsets : list Z) (i : nat) :
  (i < List.length offsets)%nat ->
  nth i (row_counts last offsets) 0
  = nth i offsets 0 - match i with O => last | S j => nth j offsets 0 end.
Proof.
  revert last i; induction offsets as [|o r IH]; intros last i Hi.
  - cbn in Hi. lia.
  - destruct i as [|i]; [reflexivity|].
    cbn [row_counts nth]. rewrite IH by (cbn in Hi; lia).
    destruct i; reflexivity.
Qed.

(** The element codecs of this module decode a row of zero elements to an
    empty sequence and leave the position where it was. *)
Lemma zero_count_rows (source : bytes) (must_swap : bool) :
  (forall l, 0 <= l <= len source ->
     UUID_from_native source l 0 must_swap = Ok (VList [], l)) /\
  (forall cls size l,
     FixedString_from_native cls size source l 0 must_swap = Ok (VTuple [], l)).
Proof.
  split.
  - intros l Hl. rewrite UUID_from_native_value by lia.
    cbn [range Z.to_nat seq map]. do 2 f_equal. lia.
  - intros cls size l. unfold FixedString_from_native.
    cbn [range Z.to_nat seq map]. do 2 f_equal. lia.
Qed.

(** Asked for [cnt] elements, the element codecs of this module return
    [cnt] of them. *)
Lemma element_rows_count (source : bytes) (must_swap : bool) :
  (forall l cnt, 0 <= l -> 0 <= cnt -> l + 16 * cnt <= len source ->
     exists row, UUID_from_native source l cnt must_swap = Ok (VList row, l + 16 * cnt)
                 /\ len row = cnt) /\
  (forall cls size l cnt, 0 <= cnt ->
     exists row, FixedString_from_native cls size source l cnt must_swap
                 = Ok (VTuple row, l + size * cnt)
                 /\ len row = cnt).
Proof.
  split.
  - intros l cnt Hl Hc Hlen. eexists. split; [apply UUID_from_native_value; assumption|].
    unfold len. rewrite length_map, range_length. lia.
  - intros cls size l cnt Hc. eexists. split; [reflexivity|].
    unfold len. rewrite length_map, range_length. lia.
Qed.

(** C6.  A bulk decode of [num_rows] arrays reads [num_rows] 64-bit words at
    [loc] as the cumulative offsets, each byte-swapped when a swap is
    requested.  Row [i] asks the element codec for [offset[i] - offset[i-1]]
    elements, [offset[-1]] being 0; the rows are decoded in row order, each
    from the position where the one before stopped, the first one right after
    the offsets; the decode returns exactly when every row does; the counts
    add up to the last offset; an element codec of this module that is asked
    for [cnt] elements returns [cnt] of them; and a row of zero elements over
    such a codec is an empty sequence that leaves the position unchanged.  With the offsets 2, 2, 5 (0, 2, 2, 5 when the leading
    [offset[-1] = 0] is written out) the three rows have 2, 0 and 3
    elements. *)
Theorem Array_from_native_offsets_rows
    (host : byteorder)
    (conv : bytes -> Z -> Z -> bool -> result (object * Z))
    (conv_py : option (object -> result object))
    (source : bytes) (loc num_rows : Z) (must_swap : bool) :
  0 <= loc -> 0 <= num_rows -> loc + 8 * num_rows <= len source ->
  exists offsets,
    Array_offsets host source loc num_rows must_swap = Ok offsets /\
    len offsets = num_rows /\
    (forall i, 0 <= i < num_rows ->
       nth (Z.to_nat i) offsets 0 = offset_at host must_swap source loc i) /\
    (forall column loc',
       Array_from_native host conv conv_py source loc num_rows must_swap
         = Ok (VList column, loc')
       <-> rows_decoded conv conv_py source must_swap
                        (loc + 8 * num_rows) (row_counts 0 offsets) column loc') /\
    (forall i, 0 <= i < num_rows ->
       nth (Z.to_nat i) (row_counts 0 offsets) 0
       = nth (Z.to_nat i) offsets 0
         - (if i =? 0 then 0 else nth (Z.to_nat (i - 1)) offsets 0)) /\
    sum (row_counts 0 offsets) = List.last offsets 0 /\
    (forall l, 0 <= l <= len source ->
       UUID_from_native source l 0 must_swap = Ok (VList [], l)) /\
    (forall cls size l,
       FixedString_from_native cls size source l 0 must_swap = Ok (VTuple [], l)) /\
    (forall l cnt, 0 <= l -> 0 <= cnt -> l + 16 * cnt <= len source ->
       exists row, UUID_from_native source l cnt must_swap = Ok (VList row, l + 16 * cnt)
                   /\ len row = cnt) /\
    (forall cls size l cnt, 0 <= cnt ->
       exists row, FixedString_from_native cls size source l cnt must_swap
                   = Ok (VTuple row, l + size * cnt)
                   /\ len row = cnt) /\
    row_counts 0 [2; 2; 5] = [2; 0; 3] /\
    row_counts 0 (tl [0; 2; 2; 5]) = [2; 0; 3].
Proof.
  intros Hloc Hn Hlen.
  exists (map (offset_at host must_swap source loc) (range num_rows)).
  pose proof (Array_offsets_value host source loc num_rows must_swap Hloc Hn Hlen) as Hoff.
  assert (Hcount : List.length (map (offset_at host must_swap source loc) (range num_rows))
                   = Z.to_nat num_rows)
    by (rewrite length_map; apply range_length).
  split; [exact Hoff|].
  split; [unfold len; rewrite Hcount; lia|].
  split; [intros i Hi; rewrite nth_map_range by lia; rewrite Z2Nat.id by lia; reflexivity|].
  split.
  { intros column loc'. unfold Array_from_native. rewrite Hoff. cbn [bind].
    replace (loc + num_rows * 8) with (loc + 8 * num_rows) by lia.
    rewrite <- Array_native_loop_rows.
    destruct (Array_native_loop conv conv_py source must_swap
                (map (offset_at host must_swap source loc) (range num_rows)) 0
                (loc + 8 * num_rows)) as [[c l]|e]; cbn [bind].
    - split; intros H; injection H as <- <-; reflexivity.
    - split; intros H; discriminate H. }
  split.
  { intros i Hi. rewrite row_counts_nth by lia.
    destruct (Z.to_nat i) as [|j] eqn:Ej.
    - replace (i =? 0) with true by lia. reflexivity.
    - replace (i =? 0) with false by lia.
      replace (Z.to_nat (i - 1)) with j by lia. reflexivity. }
  split; [rewrite row_counts_sum; lia|].
  destruct (zero_count_rows source must_swap) as [Hu Hf].
  destruct (element_rows_count source must_swap) as [Hcu Hcf].
  split; [exact Hu|]. split; [exact Hf|].
  split; [exact Hcu|]. split; [exact Hcf|]. split; reflexivity.
Qed.

(** Three rows of one-byte strings under the offsets 2, 2, 5. *)
Example Array_from_native_example :
  Array_from_native little (FixedString_from_native FixedString_initial 1) None
                    array_example 0 3 false
  = Ok (VList [VTuple [VBytes [x61]; VBytes [x62]];
               VTuple [];
               VTuple [VBytes [x63]; VBytes [x64]; VBytes [x65]]], 29).
Proof. vm_compute. reflexivity. Qed.

Lemma Array_from_native_offsets_rows_witness :
  0 <= 0 /\ 0 <= 3 /\ 0 + 8 * 3 <= len array_example /\
  exists offsets,
    Array_offsets little array_example 0 3 false = Ok offsets /\
    len offsets = 3 /\
    sum (row_counts 0 offsets) = List.last offsets 0.
Proof.
  assert (H0 : 0 <= 0) by lia.
  assert (H1 : 0 <= 3) by lia.
  assert (H2 : 0 + 8 * 3 <= len array_example) by (vm_compute; discriminate).
  destruct (Array_from_native_offsets_rows little
              (FixedString_from_native FixedString_initial 1) None
              array_example 0 3 false H0 H1 H2)
    as (offsets & Ha & Hb & _ & _ & _ & Hc & _).
  exact (conj H0 (conj H1 (conj H2 (ex_intro _ offsets (conj Ha (conj Hb Hc)))))).
Defined.

(* ================================================================== *)
(** ** Round trip                                                       *)
(* ================================================================== *)

(** *** The length prefix of the examples *)

Lemma byte_val_small (z : Z) : 0 <= z < 256 -> byte_val (byte_of_Z z) = z.
Proof. intros H. rewrite byte_val_of_Z. apply Z.mod_small. exact H. Qed.

Lemma to_leb128_loop_S (f : nat) (value : Z) :
  to_leb128_loop (S f) value
  = if value / 128 =? 0 then [byte_of_Z (value mod 128)]
    else byte_of_Z (128 + value mod 128) :: to_leb128_loop f (value / 128).
Proof. reflexivity. Qed.

Lemma read_to_leb128_loop (f : nat) (value : Z) (rest : bytes) (shift length pos : Z) :
  0 <= value < 128 ^ Z.of_nat (S f) -> 0 <= shift ->
  read_leb128_loop (to_leb128_loop (S f) value ++ rest) shift length pos
  = Ok (length + value * 2 ^ shift, pos + len (to_leb128_loop (S f) value)).
Proof.
  revert value shift length pos; induction f as [|f IH];
    intros value shift length pos Hv Hs;
    pose proof (Z.mod_pos_bound value 128 ltac:(lia)) as Hb;
    pose proof (Z.div_mod value 128 ltac:(lia)) as Hdm.
  - change (128 ^ Z.of_nat 1) with 128 in Hv.
    cbn [to_leb128_loop]. rewrite Z.div_small by lia. cbn [Z.eqb app read_leb128_loop].
    rewrite byte_val_small by lia.
    rewrite (Z.mod_small (value mod 128) 128) by lia.
    rewrite (Z.mod_small value 128) by lia.
    replace (value <? 128) with true by lia. reflexivity.
  - rewrite (to_leb128_loop_S (S f) value).
    assert (Hq : 0 <= value / 128 < 128 ^ Z.of_nat (S f)).
    { split; [apply Z.div_pos; lia|].
      apply Z.div_lt_upper_bound; [lia|].
      rewrite (Nat2Z.inj_succ (S f)), Z.pow_succ_r in Hv by lia. lia. }
    destruct (value / 128 =? 0) eqn:E.
    + cbn [app read_leb128_loop].
      rewrite byte_val_small by lia.
      rewrite (Z.mod_small (value mod 128) 128) by lia.
      replace (value mod 128 <? 128) with true by lia.
      replace (value mod 128) with value by lia. reflexivity.
    + cbn [app read_leb128_loop].
      rewrite byte_val_small by lia.
      replace (128 + value mod 128 <? 128) with false by lia.
      assert (Hm : (128 + value mod 128) mod 128 = value mod 128).
      { replace (128 + value mod 128) with (value mod 128 + 1 * 128) by lia.
        rewrite Z.mod_add by lia. apply Z.mod_small. lia. }
      rewrite Hm, IH by lia.
      rewrite Z.pow_add_r by lia. change (2 ^ 7) with 128.
      replace (len (byte_of_Z (128 + value mod 128) :: to_leb128_loop (S f) (value / 128)))
        with (1 + len (to_leb128_loop (S f) (value / 128)))
        by (unfold len; cbn [List.length]; lia).
      f_equal. f_equal; [|lia].
      rewrite Hdm at 3. ring.
Qed.

Lemma example_leb128_round_trip : leb128_round_trip example_read_leb128 example_to_leb128.
Proof.
  intros n dest rest Hn. unfold example_read_leb128, example_to_leb128.
  assert (Hfuel : 0 <= n < 128 ^ Z.of_nat (S (Z.to_nat (Z.log2 n)))).
  { split; [exact Hn|]. pose proof (Z.log2_nonneg n) as Hl.
    rewrite Nat2Z.inj_succ, Z2Nat.id by lia.
    destruct (Z.eq_dec n 0) as [->|Hz]; [apply Z.pow_pos_nonneg; lia|].
    pose proof (Z.log2_spec n ltac:(lia)) as [_ Hu].
    assert (2 ^ Z.succ (Z.log2 n) <= 128 ^ Z.succ (Z.log2 n))
      by (apply Z.pow_le_mono_l; lia).
    lia. }
  set (fuel := Z.to_nat (Z.log2 n)) in *.
  assert (Hne : 0 < len (to_leb128_loop (S fuel) n)).
  { cbn [to_leb128_loop]. destruct (n / 128 =? 0); unfold len; cbn [List.length]; lia. }
  pose proof (len_nonneg dest) as Hd. pose proof (len_nonneg rest) as Hr.
  rewrite !len_app.
  replace (len dest <? 0) with false by lia.
  replace (len dest + (len (to_leb128_loop (S fuel) n) + len rest) <=? len dest)
    with false by lia.
  cbn [orb]. unfold len at 1. rewrite Nat2Z.id.
  rewrite skipn_app, skipn_all, Nat.sub_diag. cbn [app skipn].
  rewrite read_to_leb128_loop by lia.
  rewrite Z.pow_0_r. f_equal. f_equal. lia.
Qed.

Example example_leb128_300 :
  example_to_leb128 300 = [xac; x02] /\
  example_read_leb128 [xac; x02] 0 = Ok (300, 2).
Proof. split; vm_compute; reflexivity. Qed.

(** *** Induction over the types *)

Lemma ClickHouseType_nested_ind (P : ClickHouseType -> Prop) :
  P UUID ->
  (forall size, P (FixedString size)) ->
  P Nothing ->
  (forall t, P t -> P (Array t)) ->
  (forall ts, Forall P ts -> P (Tuple ts)) ->
  (forall k v, P k -> P v -> P (Map k v)) ->
  P AggregateFunction ->
  (forall t, P t -> P (SimpleAggregateFunction t)) ->
  (forall c, P (Foreign c)) ->
  forall t, P t.
Proof.
  intros HU HF HN HA HT HM HG HS HX.
  fix IH 1. intros [ | size | | t | ts | k v | | t | c].
  - exact HU.
  - apply HF.
  - exact HN.
  - apply HA, IH.
  - apply HT. induction ts as [|t ts IHts]; constructor; [apply IH | exact IHts].
  - apply HM; apply IH.
  - exact HG.
  - apply HS, IH.
  - apply HX.
Qed.

Lemma list_eqb_refl {A} (eqb : A -> A -> bool) (l : list A) :
  (forall a, eqb a a = true) -> list_eqb eqb l l = true.
Proof.
  intros H. induction l as [|a l IH]; cbn [list_eqb]; [reflexivity|].
  rewrite H, IH. reflexivity.
Qed.

Lemma Byte_eqb_refl (x : byte) : Byte.eqb x x = true.
Proof. apply Byte.byte_dec_lb. reflexivity. Qed.

Lemma round_trips_of_encodes_and_decodes_back encode decode v :
  encodes_and_decodes_back encode decode v -> round_trips encode decode v.
Proof.
  intros (wire & v' & He & Hd & Heq). exists wire, v'.
  split; [apply (He [])|]. split; [|exact Heq].
  specialize (Hd [] []). rewrite app_nil_r in Hd. exact Hd.
Qed.

(** *** Encode, then decode *)

Lemma UUID_encodes_and_decodes_back (u : PyUUID) :
  0 <= int u < 2 ^ 128 ->
  encodes_and_decodes_back UUID__to_row_binary UUID__from_row_binary (VUUID u).
Proof.
  intros Hu.
  set (b := rev (le_digits 16 (int u))).
  assert (Hb : len b = 16)
    by (subst b; rewrite len_rev; unfold len; rewrite le_digits_length; reflexivity).
  assert (Hbytes : PyUUID_bytes u = Ok b)
    by (unfold PyUUID_bytes; apply int_to_bytes_big_ok; exact Hu).
  assert (Hint : int_from_bytes_big b = int u).
  { subst b. unfold int_from_bytes_big. rewrite rev_involutive, int_from_bytes_le_digits.
    apply Z.mod_small. exact Hu. }
  destruct (uuid_wire_halves b Hb) as (Hh & Hl & Hcat).
  exists (uuid_wire b), (VUUID (mkUUID (int u) unknown)).
  split; [|split].
  - intros dest. unfold UUID__to_row_binary. rewrite Hbytes. cbn [bind].
    rewrite Hb. reflexivity.
  - intros dest rest. unfold uuid_wire.
    rewrite UUID_decode_wire by assumption.
    rewrite !rev_involutive, Hcat, Hint.
    rewrite len_app, Hh, Hl. reflexivity.
  - cbn [py_eqb int]. apply Z.eqb_refl.
Qed.

Lemma FixedString_encodes_and_decodes_back
    (bytes_decode : string -> bytes -> result pystr)
    (str_encode : string -> pystr -> result bytes)
    (cls : FixedString_class) (size : Z) (b : bytes) :
  _transform cls = staticmethod _fixed_string_binary ->
  len b = size ->
  encodes_and_decodes_back (FixedString__to_row_binary str_encode cls)
                           (FixedString__from_row_binary bytes_decode cls size)
                           (VBytes b).
Proof.
  intros Hraw Hb. exists b, (VBytes b). split; [|split].
  - intros dest. reflexivity.
  - intros dest rest. unfold FixedString__from_row_binary, call__transform.
    rewrite Hraw. cbn [positional List.length parameters Nat.eqb run_plain bind].
    rewrite <- Hb, slice_middle. reflexivity.
  - cbn [py_eqb]. apply list_eqb_refl, Byte_eqb_refl.
Qed.

(** The loops of Array: one element after the other, on both sides. *)
Lemma Array_loops_round_trip (enc : encoder) (dec : decoder) (vs : list object) :
  Forall (encodes_and_decodes_back (call_value_dest enc) (call_source_loc dec)) vs ->
  exists wire vs',
    (forall dest, Array_encode_loop enc vs dest = Ok (dest ++ wire)) /\
    (forall dest rest,
       Array_decode_loop dec (List.length vs) (dest ++ wire ++ rest) (len dest)
       = Ok (vs', len dest + len wire)) /\
    list_eqb py_eqb vs' vs = true.
Proof.
  induction 1 as [|v vs (w1 & v' & He & Hd & Heq) _ (w2 & vs' & Hes & Hds & Heqs)].
  - exists [], []. split; [|split].
    + intros dest. cbn. rewrite app_nil_r. reflexivity.
    + intros dest rest. change (len (@nil byte)) with 0. rewrite Z.add_0_r. reflexivity.
    + reflexivity.
  - exists (w1 ++ w2), (v' :: vs'). split; [|split].
    + intros dest. cbn [Array_encode_loop]. rewrite He. cbn [bind].
      rewrite Hes, app_assoc. reflexivity.
    + intros dest rest. cbn [Array_decode_loop List.length].
      rewrite <- app_assoc, Hd. cbn [bind].
      replace (len dest + len w1) with (len (dest ++ w1)) by apply len_app.
      rewrite (app_assoc dest w1), Hds. cbn [bind].
      rewrite !len_app. do 2 f_equal. lia.
    + cbn [list_eqb]. rewrite Heq, Heqs. reflexivity.
Qed.

(** The loops of Tuple: each value by the codec at its place. *)
Lemma Tuple_loops_round_trip (E : ClickHouseType -> encoder) (D : ClickHouseType -> decoder)
    (ts : list ClickHouseType) (vs : list object) :
  Forall2 (fun t v => encodes_and_decodes_back
                        (call_value_dest (E t)) (call_source_loc (D t)) v) ts vs ->
  exists wire vs',
    (forall dest, Tuple_encode_loop vs (map E ts) dest = Ok (dest ++ wire)) /\
    (forall dest rest,
       Tuple_decode_loop (map D ts) (dest ++ wire ++ rest) (len dest)
       = Ok (vs', len dest + len wire)) /\
    list_eqb py_eqb vs' vs = true.
Proof.
  induction 1 as [|t v ts vs (w1 & v' & He & Hd & Heq) _ (w2 & vs' & Hes & Hds & Heqs)].
  - exists [], []. split; [|split].
    + intros dest. cbn. rewrite app_nil_r. reflexivity.
    + intros dest rest. change (len (@nil byte)) with 0. rewrite Z.add_0_r. reflexivity.
    + reflexivity.
  - exists (w1 ++ w2), (v' :: vs'). split; [|split].
    + intros dest. cbn [Tuple_encode_loop map]. rewrite He. cbn [bind].
      rewrite Hes, app_assoc. reflexivity.
    + intros dest rest. cbn [Tuple_decode_loop map].
      rewrite <- app_assoc, Hd. cbn [bind].
      replace (len dest + len w1) with (len (dest ++ w1)) by apply len_app.
      rewrite (app_assoc dest w1), Hds. cbn [bind].
      rewrite !len_app. do 2 f_equal. lia.
    + cbn [list_eqb]. rewrite Heq, Heqs. reflexivity.
Qed.

Section RoundTrip.

Variable read_leb128 : bytes -> Z -> result (Z * Z).
Variable to_leb128 : Z -> bytes.
Variable bytes_decode : string -> bytes -> result pystr.
Variable str_encode : string -> pystr -> result bytes.
Variable cls : FixedString_class.

(** The raw strategy. *)
Hypothesis raw_strategy : _transform cls = staticmethod _fixed_string_binary.

Let encode := encode_one to_leb128 str_encode cls.
Let decode := decode_one read_leb128 bytes_decode cls.

Lemma in_domain_Tuple_Forall2 (P : ClickHouseType -> object -> Prop)
    (ts : list ClickHouseType) (vs : list object) :
  Forall (fun t => forall v, in_domain t v = true -> P t v) ts ->
  in_domain (Tuple ts) (VTuple vs) = true ->
  Forall2 P ts vs.
Proof.
  intros HP. revert vs. induction HP as [|t ts Ht _ IH]; intros [|v vs] Hv;
    cbn in Hv; try discriminate.
  - constructor.
  - apply andb_prop in Hv. destruct Hv as [Hv Hvs].
    constructor; [apply Ht; exact Hv | apply IH; exact Hvs].
Qed.

Lemma encode_then_decode (t : ClickHouseType) :
  leb128_round_trip read_leb128 to_leb128 ->
  round_trip_type true t = true ->
  forall v, in_domain t v = true -> encodes_and_decodes_back (encode t) (decode t) v.
Proof.
  intros Hleb. induction t as [ | size | | t IH | ts IH | k v' _ _ | | t _ | c]
    using ClickHouseType_nested_ind; intros Hrt v Hv; try discriminate Hrt.
  - destruct v as [ | | | | u | | | ]; try discriminate Hv.
    cbn [in_domain] in Hv. apply andb_prop in Hv.
    apply UUID_encodes_and_decodes_back. lia.
  - destruct v as [ | | | b | | | | ]; try discriminate Hv.
    cbn [in_domain] in Hv.
    apply (FixedString_encodes_and_decodes_back bytes_decode str_encode cls size b);
      [exact raw_strategy | lia].
  - destruct v as [ | | | | | vs | | ]; try discriminate Hv.
    cbn [round_trip_type andb] in Hrt. cbn [in_domain] in Hv.
    assert (Hall : Forall (encodes_and_decodes_back
                             (call_value_dest (to_row_binary to_leb128 str_encode cls t))
                             (call_source_loc (from_row_binary read_leb128 bytes_decode cls t)))
                          vs).
    { apply Forall_forall. intros x Hx. apply (IH Hrt).
      rewrite forallb_forall in Hv. apply Hv. exact Hx. }
    destruct (Array_loops_round_trip _ _ vs Hall) as (wire & vs' & He & Hd & Heq).
    exists (to_leb128 (len vs) ++ wire), (VList vs'). split; [|split].
    + intros dest. unfold encode, encode_one.
      cbn [to_row_binary call_value_dest]. unfold Array__to_row_binary.
      cbn [py_len py_iter bind]. rewrite He, app_assoc. reflexivity.
    + intros dest rest. unfold decode, decode_one.
      cbn [from_row_binary call_source_loc]. unfold Array__from_row_binary.
      rewrite <- app_assoc, Hleb by apply len_nonneg. cbn [bind].
      replace (Z.to_nat (len vs)) with (List.length vs) by (unfold len; lia).
      replace (len dest + len (to_leb128 (len vs)))
        with (len (dest ++ to_leb128 (len vs))) by apply len_app.
      rewrite (app_assoc dest), Hd. cbn [bind].
      rewrite !len_app. do 2 f_equal. lia.
    + rewrite py_eqb_VList. exact Heq.
  - destruct v as [ | | | | | | vs | ]; try discriminate Hv.
    cbn [round_trip_type] in Hrt.
    assert (Hall : Forall (fun t => forall v, in_domain t v = true ->
                             encodes_and_decodes_back
                               (call_value_dest (to_row_binary to_leb128 str_encode cls t))
                               (call_source_loc (from_row_binary read_leb128 bytes_decode cls t))
                               v) ts).
    { rewrite forallb_forall in Hrt. rewrite Forall_forall in IH |- *.
      intros t Ht. apply (IH t Ht). apply Hrt. exact Ht. }
    pose proof (in_domain_Tuple_Forall2 _ ts vs Hall Hv) as H2.
    destruct (Tuple_loops_round_trip _ _ ts vs H2) as (wire & vs' & He & Hd & Heq).
    exists wire, (VTuple vs'). split; [|split].
    + intros dest. unfold encode, encode_one.
      cbn [to_row_binary call_value_dest]. unfold Tuple__to_row_binary.
      cbn [py_iter bind]. apply He.
    + intros dest rest. unfold decode, decode_one.
      cbn [from_row_binary call_source_loc]. unfold Tuple__from_row_binary.
      rewrite Hd. reflexivity.
    + rewrite py_eqb_VTuple. exact Heq.
Qed.

End RoundTrip.

(** *** Decode, then encode *)

Lemma slice_empty {A} (l : list A) (i : Z) : 0 <= i -> slice l i i = [].
Proof.
  intros Hi. rewrite slice_inside by lia. rewrite Z.sub_diag. reflexivity.
Qed.

Lemma slice_three {A} (l : list A) (i j : Z) :
  0 <= i <= j -> j <= len l ->
  l = slice l 0 i ++ slice l i j ++ slice l j (len l).
Proof.
  intros Hij Hj. rewrite !slice_split by lia. symmetry. apply slice_all.
Qed.

Lemma UUID_decodes_and_encodes_back :
  decodes_and_encodes_back UUID__to_row_binary UUID__from_row_binary.
Proof.
  intros source loc v loc' Hloc Hdec.
  pose proof Hdec as Hval. rewrite UUID__from_row_binary_value in Hval.
  injection Hval as _ Hloc'. split; [lia|]. intros Hlen dest. subst loc'.
  set (hi := slice source loc (loc + 8)).
  set (lo := slice source (loc + 8) (loc + 16)).
  assert (Hh : len hi = 8) by (subst hi; rewrite slice_length by lia; lia).
  assert (Hl : len lo = 8) by (subst lo; rewrite slice_length by lia; lia).
  assert (Hsrc : source = slice source 0 loc ++ (hi ++ lo) ++ slice source (loc + 16) (len source)).
  { subst hi lo. rewrite (slice_split source loc (loc + 8) (loc + 16)) by lia.
    apply slice_three; lia. }
  assert (Hpre : len (slice source 0 loc) = loc) by (rewrite slice_length by lia; lia).
  rewrite Hsrc in Hdec at 1. rewrite <- Hpre in Hdec at 3.
  rewrite UUID_decode_wire in Hdec by assumption.
  injection Hdec as <-.
  set (b := rev hi ++ rev lo).
  assert (Hb : len b = 16) by (subst b; rewrite len_app, !len_rev; lia).
  rewrite UUID_encode_bytes by exact Hb. unfold uuid_wire.
  assert (E1 : slice b 0 8 = rev hi).
  { pose proof (slice_middle [] (rev hi) (rev lo)) as Hm.
    rewrite len_rev, Hh in Hm. exact Hm. }
  assert (E2 : slice b 8 16 = rev lo).
  { pose proof (slice_middle (rev hi) (rev lo) []) as Hm.
    rewrite !len_rev, Hh, Hl, app_nil_r in Hm. exact Hm. }
  rewrite E1, E2, !rev_involutive.
  subst hi lo. rewrite (slice_split source loc (loc + 8) (loc + 16)) by lia.
  reflexivity.
Qed.

Lemma FixedString_decodes_and_encodes_back
    (bytes_decode : string -> bytes -> result pystr)
    (str_encode : string -> pystr -> result bytes)
    (cls : FixedString_class) (size : Z) :
  _transform cls = staticmethod _fixed_string_binary ->
  0 <= size ->
  decodes_and_encodes_back (FixedString__to_row_binary str_encode cls)
                           (FixedString__from_row_binary bytes_decode cls size).
Proof.
  intros Hraw Hsize source loc v loc' Hloc Hdec.
  unfold FixedString__from_row_binary, call__transform in Hdec.
  rewrite Hraw in Hdec.
  cbn [positional List.length parameters Nat.eqb run_plain bind] in Hdec.
  injection Hdec as <- <-. split; [lia|]. intros _ dest. reflexivity.
Qed.

Lemma Tuple_loops_decode_encode (E : ClickHouseType -> encoder)
    (D : ClickHouseType -> decoder) (ts : list ClickHouseType) :
  Forall (fun t => decodes_and_encodes_back (call_value_dest (E t))
                                            (call_source_loc (D t))) ts ->
  forall source loc vs loc',
    0 <= loc -> Tuple_decode_loop (map D ts) source loc = Ok (vs, loc') ->
    loc <= loc' /\
    (loc' <= len source ->
     forall dest, Tuple_encode_loop vs (map E ts) dest
                  = Ok (dest ++ slice source loc loc')).
Proof.
  induction 1 as [|t ts Ht _ IH]; intros source loc vs loc' Hloc Hdec;
    cbn [map Tuple_decode_loop] in Hdec.
  - injection Hdec as <- <-. split; [lia|]. intros _ dest.
    rewrite slice_empty by lia. cbn. rewrite app_nil_r. reflexivity.
  - destruct (call_source_loc (D t) source loc) as [[v l1]|] eqn:E1;
      cbn [bind] in Hdec; [|discriminate].
    destruct (Tuple_decode_loop (map D ts) source l1) as [[vs1 l2]|] eqn:E2;
      cbn [bind] in Hdec; [|discriminate].
    injection Hdec as <- <-.
    destruct (Ht source loc v l1 Hloc E1) as [Hm1 He1].
    destruct (IH source l1 vs1 l2 ltac:(lia) E2) as [Hm2 He2].
    split; [lia|]. intros Hlen dest. cbn [map Tuple_encode_loop].
    rewrite He1 by lia. cbn [bind]. rewrite He2 by lia.
    rewrite <- app_assoc, slice_split by lia. reflexivity.
Qed.

Section RoundTripBack.

Variable read_leb128 : bytes -> Z -> result (Z * Z).
Variable to_leb128 : Z -> bytes.
Variable bytes_decode : string -> bytes -> result pystr.
Variable str_encode : string -> pystr -> result bytes.
Variable cls : FixedString_class.

Hypothesis raw_strategy : _transform cls = staticmethod _fixed_string_binary.

Lemma decode_then_encode (t : ClickHouseType) :
  round_trip_type false t = true ->
  decodes_and_encodes_back (encode_one to_leb128 str_encode cls t)
                           (decode_one read_leb128 bytes_decode cls t).
Proof.
  induction t as [ | size | | t _ | ts IH | k v' _ _ | | t _ | c]
    using ClickHouseType_nested_ind; intros Hrt; try discriminate Hrt.
  - apply UUID_decodes_and_encodes_back.
  - apply (FixedString_decodes_and_encodes_back bytes_decode str_encode cls size);
      [exact raw_strategy | cbn [round_trip_type] in Hrt; lia].
  - cbn [round_trip_type] in Hrt.
    assert (Hall : Forall (fun t => decodes_and_encodes_back
                             (call_value_dest (to_row_binary to_leb128 str_encode cls t))
                             (call_source_loc (from_row_binary read_leb128 bytes_decode cls t)))
                          ts).
    { rewrite forallb_forall in Hrt. rewrite Forall_forall in IH |- *.
      intros t Ht. apply (IH t Ht). apply Hrt. exact Ht. }
    intros source loc v loc' Hloc Hdec.
    unfold decode_one in Hdec. cbn [from_row_binary call_source_loc] in Hdec.
    unfold Tuple__from_row_binary in Hdec.
    destruct (Tuple_decode_loop
                (map (from_row_binary read_leb128 bytes_decode cls) ts) source loc)
      as [[vs l]|] eqn:E; cbn [bind] in Hdec; [|discriminate].
    injection Hdec as <- <-.
    destruct (Tuple_loops_decode_encode _ _ ts Hall source loc vs l Hloc E) as [Hm He].
    split; [exact Hm|]. intros Hlen dest.
    unfold encode_one. cbn [to_row_binary call_value_dest].
    unfold Tuple__to_row_binary. cbn [py_iter bind]. apply He. exact Hlen.
Qed.

End RoundTripBack.

(** The text codecs of the examples on a two-byte character and on a byte
    that is no UTF-8. *)
Example codec_examples :
  codec_decode "utf8" [xc3; xa9] = Ok [233] /\
  codec_encode "utf8" [233] = Ok [xc3; xa9] /\
  codec_decode "utf8" [xff] = Raise UnicodeDecodeError /\
  codec_decode "utf8" [xc0; x80] = Raise UnicodeDecodeError.
Proof. repeat split; vm_compute; reflexivity. Qed.

(** *** The round trip of the specification *)

(** C1, as the specification states it, fails on fixed-width strings: the
    encode accepts text, and under the raw strategy the decode returns the
    bytes, which are not equal to the text; under the decode-as-text strategy
    with the hex policy, a byte that is no text decodes to its hex rendering,
    whose encode is two other bytes. *)
Lemma FixedString_does_not_round_trip :
  ~ round_trips
      (encode_one example_to_leb128 codec_encode FixedString_initial (FixedString 1))
      (decode_one example_read_leb128 codec_decode FixedString_initial (FixedString 1))
      (VStr (str "a")) /\
  (let cls := fixed_string_format "decode" "utf8" "hex" FixedString_initial in
   decode_one example_read_leb128 codec_decode cls (FixedString 1) [xff] 0
     = Ok (VStr (str "ff"), 1) /\
   encode_one example_to_leb128 codec_encode cls (FixedString 1) (VStr (str "ff")) []
     = Ok [x66; x66]).
Proof.
  split.
  - intros (wire & v' & He & Hd & Heq).
    vm_compute in He. injection He as <-.
    vm_compute in Hd. injection Hd as <-.
    vm_compute in Heq. discriminate Heq.
  - split; vm_compute; reflexivity.
Qed.

(** C1, amended.  For UUID, for fixed-width strings under the raw strategy
    with byte values of the declared width, for tuples of such types (each
    value by the codec at its place, in declared order) and for arrays of
    them (given that the length prefix reads back what it wrote), the decode
    of the bytes that the encode wrote returns a value equal to the original
    and consumes exactly those bytes; and for the same types without arrays,
    when a decode consumed the bytes [source[loc:loc']], the encode of the
    decoded value writes those bytes again. *)
Theorem row_binary_round_trip
    (read_leb128 : bytes -> Z -> result (Z * Z)) (to_leb128 : Z -> bytes)
    (bytes_decode : string -> bytes -> result pystr)
    (str_encode : string -> pystr -> result bytes)
    (cls : FixedString_class) (t : ClickHouseType) :
  _transform cls = staticmethod _fixed_string_binary ->
  (leb128_round_trip read_leb128 to_leb128 ->
   round_trip_type true t = true ->
   forall v, in_domain t v = true ->
     encodes_and_decodes_back (encode_one to_leb128 str_encode cls t)
                              (decode_one read_leb128 bytes_decode cls t) v /\
     round_trips (encode_one to_leb128 str_encode cls t)
                 (decode_one read_leb128 bytes_decode cls t) v) /\
  (round_trip_type false t = true ->
   decodes_and_encodes_back (encode_one to_leb128 str_encode cls t)
                            (decode_one read_leb128 bytes_decode cls t)).
Proof.
  intros Hraw. split.
  - intros Hleb Hrt v Hv.
    pose proof (encode_then_decode read_leb128 to_leb128 bytes_decode str_encode cls
                  Hraw t Hleb Hrt v Hv) as H.
    split; [exact H | apply round_trips_of_encodes_and_decodes_back; exact H].
  - intros Hrt.
    apply (decode_then_encode read_leb128 to_leb128 bytes_decode str_encode cls Hraw t Hrt).
Qed.

Lemma row_binary_round_trip_witness :
  _transform FixedString_initial = staticmethod _fixed_string_binary /\
  leb128_round_trip example_read_leb128 example_to_leb128 /\
  round_trip_type true round_trip_example_type = true /\
  in_domain round_trip_example_type round_trip_example_value = true /\
  round_trips
    (encode_one example_to_leb128 codec_encode FixedString_initial round_trip_example_type)
    (decode_one example_read_leb128 codec_decode FixedString_initial round_trip_example_type)
    round_trip_example_value /\
  round_trip_type false (Tuple [UUID; FixedString 2]) = true /\
  decodes_and_encodes_back
    (encode_one example_to_leb128 codec_encode FixedString_initial
                (Tuple [UUID; FixedString 2]))
    (decode_one example_read_leb128 codec_decode FixedString_initial
                (Tuple [UUID; FixedString 2])).
Proof.
  assert (H1 : _transform FixedString_initial = staticmethod _fixed_string_binary)
    by reflexivity.
  assert (H2 : round_trip_type true round_trip_example_type = true) by reflexivity.
  assert (H3 : in_domain round_trip_example_type round_trip_example_value = true)
    by (vm_compute; reflexivity).
  assert (H4 : round_trip_type false (Tuple [UUID; FixedString 2]) = true) by reflexivity.
  refine (conj H1 (conj example_leb128_round_trip (conj H2 (conj H3 (conj _ (conj H4 _)))))).
  - exact (proj2 (proj1 (row_binary_round_trip example_read_leb128 example_to_leb128
                           codec_decode codec_encode FixedString_initial
                           round_trip_example_type H1)
                        example_leb128_round_trip H2 round_trip_example_value H3)).
  - exact (proj2 (row_binary_round_trip example_read_leb128 example_to_leb128
                    codec_decode codec_encode FixedString_initial
                    (Tuple [UUID; FixedString 2]) H1) H4).
Defined.

(** The bytes of the example. *)
Example round_trip_example_wire :
  encode_one example_to_leb128 codec_encode FixedString_initial
             round_trip_example_type round_trip_example_value []
  = Ok ([x77; x66; x55; x44; x33; x22; x11; x00; xff; xee; xdd; xcc; xbb; xaa; x99; x88]
        ++ [x02] ++ [x61; x62; x63; x64]).
Proof. vm_compute. reflexivity. Qed.

(* ================================================================== *)
(** ** UUID: further properties                                         *)
(* ================================================================== *)

(** [UUID._from_row_binary] returns on every buffer and every position,
    negative ones included: the identifier it builds fits 128 bits, is marked
    [SafeUUID.unknown], and the position advances by 16. *)
Theorem UUID_row_decode_total (source : bytes) (loc : Z) :
  exists u,
    UUID__from_row_binary source loc = Ok (VUUID u, loc + 16) /\
    0 <= int u < 2 ^ 128 /\ is_safe u = unknown.
Proof.
  eexists. split; [apply UUID__from_row_binary_value|].
  cbn [int is_safe].
  pose proof (word64_at_range source loc).
  pose proof (word64_at_range source (loc + 8)).
  change (2 ^ 128) with (2 ^ 64 * 2 ^ 64).
  split; [nia | reflexivity].
Qed.



(** The bytes that [UUID._to_row_binary] writes depend on the integer of the
    identifier alone. *)
Lemma UUID__to_row_binary_int (u u' : PyUUID) (dest : bytes) :
  int u = int u' ->
  UUID__to_row_binary (VUUID u) dest = UUID__to_row_binary (VUUID u') dest.
Proof.
  intros H. unfold UUID__to_row_binary, PyUUID_bytes. rewrite H. reflexivity.
Qed.

(** The two paths agree across directions: an identifier that the bulk
    decode built for row [i], encoded by the row-oriented encode, gives the
    sixteen bytes of row [i] again. *)
Theorem UUID_from_native_then_to_row_binary (source : bytes) (loc num_rows : Z)
    (must_swap : bool) :
  0 <= loc -> 0 <= num_rows -> loc + 16 * num_rows <= len source ->
  exists column,
    UUID_from_native source loc num_rows must_swap
      = Ok (VList column, loc + 16 * num_rows) /\
    forall i dest, 0 <= i < num_rows ->
      UUID__to_row_binary (nth (Z.to_nat i) column VNone) dest
      = Ok (dest ++ slice source (loc + 16 * i) (loc + 16 * i + 16)).
Proof.
  intros Hloc Hn Hlen. eexists. split; [apply UUID_from_native_value; assumption|].
  intros i dest Hi. rewrite nth_map_range by lia. rewrite Z2Nat.id by lia.
  unfold native_uuid.
  pose proof (word64_at_range source (loc + 16 * i + 8)) as Hlo.
  rewrite (UUID__to_row_binary_int _
             (mkUUID (word64_at source (loc + 16 * i) * 2 ^ 64
                      + word64_at source (loc + 16 * i + 8)) unknown))
    by (cbn [int]; apply shift_or_words; exact Hlo).
  destruct (UUID_decodes_and_encodes_back source (loc + 16 * i) _ _
              ltac:(lia) (UUID__from_row_binary_value source (loc + 16 * i)))
    as [_ He].
  apply He. nia.
Qed.

Lemma UUID_from_native_then_to_row_binary_witness :
  0 <= 0 /\ 0 <= 1 /\ 0 + 16 * 1 <= len (uuid_wire uuid_example) /\
  exists column,
    UUID_from_native (uuid_wire uuid_example) 0 1 false
      = Ok (VList column, 0 + 16 * 1) /\
    forall i dest, 0 <= i < 1 ->
      UUID__to_row_binary (nth (Z.to_nat i) column VNone) dest
      = Ok (dest ++ slice (uuid_wire uuid_example) (0 + 16 * i) (0 + 16 * i + 16)).
Proof.
  assert (H0 : 0 <= 0) by lia.
  assert (H1 : 0 <= 1) by lia.
  assert (H2 : 0 + 16 * 1 <= len (uuid_wire uuid_example)) by (vm_compute; discriminate).
  exact (conj H0 (conj H1 (conj H2
           (UUID_from_native_then_to_row_binary (uuid_wire uuid_example) 0 1 false
              H0 H1 H2)))).
Defined.

(** What [UUID._to_row_binary] accepts: a value that is no identifier raises
    AttributeError, an identifier whose integer does not fit 128 bits (one
    built without validation) raises OverflowError, and any other identifier
    appends exactly sixteen bytes to [dest]. *)
Theorem UUID_to_row_binary_domain (value : object) (dest : bytes) :
  match value with
  | VUUID u =>
      if (0 <=? int u) && (int u <? 2 ^ 128)
      then exists wire, len wire = 16 /\
                        UUID__to_row_binary value dest = Ok (dest ++ wire)
      else UUID__to_row_binary value dest = Raise OverflowError
  | _ => UUID__to_row_binary value dest = Raise AttributeError
  end.
Proof.
  destruct value as [ | | | | u | | | ]; try reflexivity.
  destruct ((0 <=? int u) && (int u <? 2 ^ 128)) eqn:E.
  - apply andb_prop in E.
    destruct (UUID_encodes_and_decodes_back u ltac:(lia)) as (wire & v' & He & Hd & _).
    exists wire. split; [|apply He].
    specialize (Hd [] []). rewrite app_nil_r in Hd. cbn [app] in Hd.
    rewrite UUID__from_row_binary_value in Hd. injection Hd as _ Hlen.
    change (len (@nil byte)) with 0 in Hlen. lia.
  - unfold UUID__to_row_binary, PyUUID_bytes, int_to_bytes_big, int_to_bytes_little.
    change (256 ^ Z.of_nat 16) with (2 ^ 128).
    replace ((int u <? 0) || (2 ^ 128 <=? int u)) with true; [reflexivity|].
    apply andb_false_iff in E. symmetry. apply orb_true_iff.
    destruct E as [E|E]; [left | right]; lia.
Qed.

(* ================================================================== *)
(** ** FixedString: further properties                                  *)
(* ================================================================== *)

Lemma FixedString_row_raw (bytes_decode : string -> bytes -> result pystr)
    (cls : FixedString_class) (size : Z) (source : bytes) (loc : Z) :
  _transform cls = staticmethod _fixed_string_binary ->
  FixedString__from_row_binary bytes_decode cls size source loc
  = Ok (VBytes (slice source loc (loc + size)), loc + size).
Proof.
  intros Hraw. unfold FixedString__from_row_binary, call__transform.
  rewrite Hraw. reflexivity.
Qed.

Lemma FixedString_rows_raw (bytes_decode : string -> bytes -> result pystr)
    (cls : FixedString_class) (size : Z) (source : bytes) (n : nat) (loc : Z) :
  _transform cls = staticmethod _fixed_string_binary ->
  row_by_row (FixedString__from_row_binary bytes_decode cls size) n source loc
  = Ok (map (fun ix => VBytes (slice source (loc + ix * size) (loc + ix * size + size)))
            (range (Z.of_nat n)),
        loc + size * Z.of_nat n).
Proof.
  intros Hraw. revert loc; induction n as [|n IH]; intros loc.
  - cbn [row_by_row]. do 2 f_equal. lia.
  - cbn [row_by_row]. rewrite (FixedString_row_raw _ _ _ _ _ Hraw), IH.
    rewrite range_succ. cbn [map]. rewrite map_map. f_equal. f_equal.
    + f_equal.
      * do 2 f_equal; lia.
      * apply map_ext. intros ix. do 2 f_equal; lia.
    + lia.
Qed.

(** Under the raw strategy the bulk decode of a fixed-width string column
    returns the very values, and the very position, that [num_rows] calls of
    the row-oriented decode return, whatever the width, the position and the
    length of the buffer. *)
Theorem FixedString_from_native_refines_rows
    (bytes_decode : string -> bytes -> result pystr)
    (cls : FixedString_class) (size : Z) (source : bytes)
    (loc num_rows : Z) (must_swap : bool) :
  _transform cls = staticmethod _fixed_string_binary ->
  0 <= num_rows ->
  exists column,
    FixedString_from_native cls size source loc num_rows must_swap
      = Ok (VTuple column, loc + size * num_rows) /\
    row_by_row (FixedString__from_row_binary bytes_decode cls size)
               (Z.to_nat num_rows) source loc
      = Ok (column, loc + size * num_rows).
Proof.
  intros Hraw Hn. eexists. split; [reflexivity|].
  rewrite (FixedString_rows_raw _ _ _ _ _ _ Hraw), Z2Nat.id by lia. reflexivity.
Qed.

Lemma FixedString_from_native_refines_rows_witness :
  _transform FixedString_initial = staticmethod _fixed_string_binary /\ 0 <= 2 /\
  exists column,
    FixedString_from_native FixedString_initial 2 [x61; x62; xff] 0 2 false
      = Ok (VTuple column, 0 + 2 * 2) /\
    row_by_row (FixedString__from_row_binary codec_decode FixedString_initial 2)
               (Z.to_nat 2) [x61; x62; xff] 0
      = Ok (column, 0 + 2 * 2).
Proof.
  assert (H0 : _transform FixedString_initial = staticmethod _fixed_string_binary)
    by reflexivity.
  assert (H1 : 0 <= 2) by lia.
  exact (conj H0 (conj H1
           (FixedString_from_native_refines_rows codec_decode FixedString_initial 2
              [x61; x62; xff] 0 2 false H0 H1))).
Defined.

Lemma FixedString_column_concat (size : Z) (source : bytes) (n : nat) (loc : Z) :
  0 <= loc -> 0 <= size ->
  List.concat (map bytes_of
            (map (fun ix => VBytes (slice source (loc + ix * size) (loc + ix * size + size)))
                 (range (Z.of_nat n))))
  = slice source loc (loc + size * Z.of_nat n).
Proof.
  intros Hloc Hsize. revert loc Hloc; induction n as [|n IH]; intros loc Hloc.
  - cbn [range Z.to_nat seq map List.concat]. rewrite Z.mul_0_r, Z.add_0_r.
    symmetry. apply slice_empty. exact Hloc.
  - rewrite range_succ. cbn [map List.concat bytes_of]. rewrite !map_map.
    rewrite (map_ext _ (fun x => bytes_of
               (VBytes (slice source (loc + size + x * size) (loc + size + x * size + size)))))
      by (intros x; cbn [bytes_of]; f_equal; lia).
    rewrite <- (map_map (fun ix => VBytes (slice source (loc + size + ix * size)
                                                 (loc + size + ix * size + size)))
                        bytes_of).
    rewrite IH by lia.
    replace (loc + 0 * size) with loc by lia.
    replace (loc + size + size * Z.of_nat n) with (loc + size * Z.of_nat (S n)) by lia.
    apply slice_split; nia.
Qed.

(** The rows of a bulk decode are contiguous: put end to end, the values of
    the column are [source[loc : loc + size * num_rows]], with no byte skipped
    or read twice; on a buffer that ends early this is what is left of it. *)
Theorem FixedString_from_native_contiguous
    (cls : FixedString_class) (size : Z) (source : bytes)
    (loc num_rows : Z) (must_swap : bool) :
  0 <= loc -> 0 <= size -> 0 <= num_rows ->
  exists column,
    FixedString_from_native cls size source loc num_rows must_swap
      = Ok (VTuple column, loc + size * num_rows) /\
    List.concat (map bytes_of column) = slice source loc (loc + size * num_rows).
Proof.
  intros Hloc Hsize Hn. eexists. split; [reflexivity|].
  rewrite <- (Z2Nat.id num_rows Hn) at 1 2.
  rewrite FixedString_column_concat by assumption.
  rewrite Z2Nat.id by lia. reflexivity.
Qed.

Lemma FixedString_from_native_contiguous_witness :
  0 <= 1 /\ 0 <= 2 /\ 0 <= 2 /\
  exists column,
    FixedString_from_native FixedString_initial 2 [x00; x61; x62; xff] 1 2 false
      = Ok (VTuple column, 1 + 2 * 2) /\
    List.concat (map bytes_of column) = slice [x00; x61; x62; xff] 1 (1 + 2 * 2).
Proof.
  assert (H0 : 0 <= 1) by lia.
  assert (H1 : 0 <= 2) by lia.
  exact (conj H0 (conj H1 (conj H1
           (FixedString_from_native_contiguous FixedString_initial 2
              [x00; x61; x62; xff] 1 2 false H0 H1 H1)))).
Defined.

Lemma Z_eqb_list_refl (s : pystr) : list_eqb Z.eqb s s = true.
Proof. apply list_eqb_refl, Z.eqb_refl. Qed.

(** Under the decode-as-text strategy a text value round-trips, whatever the
    error policy, when its encoding has the declared width and decodes back
    to it: the encode appends the encoded text and the decode returns the
    text and stops right after it. *)
Theorem FixedString_text_round_trip
    (bytes_decode : string -> bytes -> result pystr)
    (str_encode : string -> pystr -> result bytes)
    (encoding encoding_error : string) (cls : FixedString_class)
    (size : Z) (s : pystr) (b : bytes) :
  str_encode encoding s = Ok b ->
  bytes_decode encoding b = Ok s ->
  len b = size ->
  encodes_and_decodes_back
    (FixedString__to_row_binary str_encode
       (fixed_string_format "decode" encoding encoding_error cls))
    (FixedString__from_row_binary bytes_decode
       (fixed_string_format "decode" encoding encoding_error cls) size)
    (VStr s).
Proof.
  intros Henc Hdec Hlen. rewrite fixed_string_format_decode.
  exists b, (VStr s). split; [|split].
  - intros dest. unfold FixedString__to_row_binary. cbn [_encoding].
    rewrite Henc. reflexivity.
  - intros dest rest.
    unfold FixedString__from_row_binary, call__transform, run_decode.
    cbn [_transform _encoding positional parameters List.length Nat.eqb].
    rewrite <- Hlen, slice_middle, Hdec. reflexivity.
  - cbn [py_eqb]. apply Z_eqb_list_refl.
Qed.

Lemma FixedString_text_round_trip_witness :
  codec_encode "utf8" [233] = Ok [xc3; xa9] /\
  codec_decode "utf8" [xc3; xa9] = Ok [233] /\
  len [xc3; xa9] = 2 /\
  encodes_and_decodes_back
    (FixedString__to_row_binary codec_encode
       (fixed_string_format "decode" "utf8" "hex" FixedString_initial))
    (FixedString__from_row_binary codec_decode
       (fixed_string_format "decode" "utf8" "hex" FixedString_initial) 2)
    (VStr [233]).
Proof.
  assert (H0 : codec_encode "utf8" [233] = Ok [xc3; xa9]) by (vm_compute; reflexivity).
  assert (H1 : codec_decode "utf8" [xc3; xa9] = Ok [233]) by (vm_compute; reflexivity).
  assert (H2 : len [xc3; xa9] = 2) by reflexivity.
  exact (conj H0 (conj H1 (conj H2
           (FixedString_text_round_trip codec_decode codec_encode "utf8" "hex"
              FixedString_initial 2 [233] [xc3; xa9] H0 H1 H2)))).
Defined.

(** Under the hex strategy every row-oriented decode raises TypeError,
    whatever the class state before, the width, the buffer and the position:
    [fixed_string_format('hex', ...)] stores [staticmethod(_hex_string)], a
    function of [(cls, value)], and [_from_row_binary] calls it with the slice
    alone. *)
Theorem FixedString_hex_strategy_raises
    (bytes_decode : string -> bytes -> result pystr)
    (encoding encoding_error : string) (cls : FixedString_class)
    (size : Z) (source : bytes) (loc : Z) :
  FixedString__from_row_binary bytes_decode
    (fixed_string_format "hex" encoding encoding_error cls) size source loc
  = Raise TypeError.
Proof. reflexivity. Qed.

(** A call of [fixed_string_format] with a method other than ['decode']
    ignores its [encoding] and [encoding_error] arguments: the class keeps
    the encoding and the error policy it had, so text values go on being
    encoded as before; with ['binary'] the row-oriented decode returns the
    raw slice again, from any state of the class. *)
Theorem fixed_string_format_keeps_encoding
    (bytes_decode : string -> bytes -> result pystr)
    (str_encode : string -> pystr -> result bytes)
    (method encoding encoding_error : string) (cls : FixedString_class)
    (size : Z) (source : bytes) (loc : Z) (s : pystr) (dest : bytes) :
  String.eqb method "decode" = false ->
  _encoding (fixed_string_format method encoding encoding_error cls) = _encoding cls /\
  _encode_error (fixed_string_format method encoding encoding_error cls)
    = _encode_error cls /\
  FixedString__to_row_binary str_encode
    (fixed_string_format method encoding encoding_error cls) (VStr s) dest
    = FixedString__to_row_binary str_encode cls (VStr s) dest /\
  FixedString__from_row_binary bytes_decode
    (fixed_string_format "binary" encoding encoding_error cls) size source loc
    = Ok (VBytes (slice source loc (loc + size)), loc + size).
Proof.
  intros Hm. unfold fixed_string_format, FixedString__to_row_binary. rewrite Hm.
  destruct (String.eqb method "binary"); [repeat split|].
  destruct (String.eqb method "hex"); repeat split.
Qed.

Lemma fixed_string_format_keeps_encoding_witness :
  String.eqb "binary" "decode" = false /\
  FixedString__to_row_binary codec_encode
    (fixed_string_format "binary" "ascii" "hex"
       (fixed_string_format "decode" "latin-1" "hex" FixedString_initial))
    (VStr [233]) []
  = FixedString__to_row_binary codec_encode
      (fixed_string_format "decode" "latin-1" "hex" FixedString_initial)
      (VStr [233]) [].
Proof.
  assert (H : String.eqb "binary" "decode" = false) by reflexivity.
  exact (conj H
           (proj1 (proj2 (proj2
              (fixed_string_format_keeps_encoding codec_decode codec_encode
                 "binary" "ascii" "hex"
                 (fixed_string_format "decode" "latin-1" "hex" FixedString_initial)
                 1 [] 0 [233] [] H))))).
Defined.

Lemma hex_digit_is_hex (d : Z) :
  0 <= d < 16 -> is_hex_digit (Z.of_nat (nat_of_ascii (hex_digit d))) = true.
Proof.
  intros H.
  assert (E : d = 0 \/ d = 1 \/ d = 2 \/ d = 3 \/ d = 4 \/ d = 5 \/ d = 6 \/ d = 7 \/
              d = 8 \/ d = 9 \/ d = 10 \/ d = 11 \/ d = 12 \/ d = 13 \/ d = 14 \/ d = 15)
    by lia.
  repeat (destruct E as [->|E]; [reflexivity|]). subst d. reflexivity.
Qed.

(** [_hex_string(cls, value)] returns a text of two characters per byte of
    [value], each of them a digit or a letter from [a] to [f]. *)
Theorem hex_string_shape (a : fs_arg) (value : bytes) :
  exists s,
    run_plain _hex_string [a; arg_bytes value] = Ok (VStr s) /\
    len s = 2 * len value /\
    forallb is_hex_digit s = true.
Proof.
  eexists. split; [reflexivity|].
  unfold hexlify. induction value as [|x value [IHl IHf]].
  - split; reflexivity.
  - cbn [flat_map app map forallb].
    pose proof (byte_val_range x) as Hx.
    split.
    + unfold len in *. cbn [List.length]. lia.
    + rewrite !hex_digit_is_hex.
      * exact IHf.
      * apply Z.mod_pos_bound. lia.
      * split; [apply Z.div_pos; lia | apply Z.div_lt_upper_bound; lia].
Qed.

(* ================================================================== *)
(** ** Encoders only append                                             *)
(* ================================================================== *)

Lemma Array_encode_loop_appends (conv : encoder) (vs : list object) :
  appends_only (call_value_dest conv) ->
  forall dest,
    Array_encode_loop conv vs dest
    = match Array_encode_loop conv vs [] with
      | Ok wire => Ok (dest ++ wire)
      | Raise e => Raise e
      end.
Proof.
  intros Hconv. induction vs as [|v vs IH]; intros dest; cbn [Array_encode_loop].
  - rewrite app_nil_r. reflexivity.
  - rewrite (Hconv v dest).
    destruct (call_value_dest conv v []) as [w1|e]; cbn [bind]; [|reflexivity].
    rewrite (IH (dest ++ w1)), (IH w1).
    destruct (Array_encode_loop conv vs []) as [w2|e]; [|reflexivity].
    rewrite app_assoc. reflexivity.
Qed.

Lemma Tuple_encode_loop_appends (E : ClickHouseType -> encoder)
    (ts : list ClickHouseType) :
  Forall (fun t => appends_only (call_value_dest (E t))) ts ->
  forall vs dest,
    Tuple_encode_loop vs (map E ts) dest
    = match Tuple_encode_loop vs (map E ts) [] with
      | Ok wire => Ok (dest ++ wire)
      | Raise e => Raise e
      end.
Proof.
  induction 1 as [|t ts Ht _ IH]; intros vs dest.
  - destruct vs; cbn; rewrite app_nil_r; reflexivity.
  - destruct vs as [|v vs]; cbn [map Tuple_encode_loop].
    + rewrite app_nil_r. reflexivity.
    + rewrite (Ht v dest).
      destruct (call_value_dest (E t) v []) as [w1|e]; cbn [bind]; [|reflexivity].
      rewrite (IH vs (dest ++ w1)), (IH vs w1).
      destruct (Tuple_encode_loop vs (map E ts) []) as [w2|e]; [|reflexivity].
      rewrite app_assoc. reflexivity.
Qed.

(** For every type built from the classes of this module, [encode_one] only
    appends: it never changes what [dest] holds, the bytes it adds do not
    depend on [dest], and it raises whatever [dest] holds if it raises on an
    empty buffer. *)
Theorem encode_one_appends_only
    (to_leb128 : Z -> bytes) (str_encode : string -> pystr -> result bytes)
    (cls : FixedString_class) (t : ClickHouseType) :
  local_type t = true ->
  appends_only (encode_one to_leb128 str_encode cls t).
Proof.
  induction t as [ | size | | t IH | ts IH | k v' _ _ | | t _ | c]
    using ClickHouseType_nested_ind; intros Hloc v dest;
    unfold encode_one; cbn [to_row_binary call_value_dest]; try reflexivity.
  - unfold UUID__to_row_binary. destruct v; try reflexivity.
    destruct (PyUUID_bytes u); reflexivity.
  - unfold FixedString__to_row_binary.
    destruct v as [ | | s | b | | | | ]; try reflexivity.
    destruct (str_encode (_encoding cls) s); reflexivity.
  - unfold Nothing__to_row_binary. rewrite app_nil_r. reflexivity.
  - cbn [local_type] in Hloc. unfold Array__to_row_binary.
    destruct (py_len v) as [n|e]; cbn [bind]; [|reflexivity].
    destruct (py_iter v) as [vs|e]; cbn [bind]; [|reflexivity].
    pose proof (Array_encode_loop_appends _ vs (IH Hloc)) as Hl.
    rewrite (Hl (dest ++ to_leb128 n)), (Hl ([] ++ to_leb128 n)).
    destruct (Array_encode_loop (to_row_binary to_leb128 str_encode cls t) vs [])
      as [w|e]; [|reflexivity].
    cbn [app]. rewrite app_assoc. reflexivity.
  - cbn [local_type] in Hloc. unfold Tuple__to_row_binary.
    destruct (py_iter v) as [vs|e]; cbn [bind]; [|reflexivity].
    apply Tuple_encode_loop_appends.
    rewrite forallb_forall in Hloc. rewrite Forall_forall in IH |- *.
    intros t Ht. apply (IH t Ht). apply Hloc. exact Ht.
  - discriminate Hloc.
Qed.

Lemma encode_one_appends_only_witness :
  local_type round_trip_example_type = true /\
  appends_only (encode_one example_to_leb128 codec_encode FixedString_initial
                           round_trip_example_type).
Proof.
  assert (H : local_type round_trip_example_type = true) by reflexivity.
  exact (conj H (encode_one_appends_only example_to_leb128 codec_encode
                   FixedString_initial round_trip_example_type H)).
Defined.

(* ================================================================== *)
(** ** Tuple: further properties                                        *)
(* ================================================================== *)

Lemma Tuple_encode_loop_extra (to_rb_funcs : list encoder) (vs extra : list object)
    (dest : bytes) :
  List.length vs = List.length to_rb_funcs ->
  Tuple_encode_loop (vs ++ extra) to_rb_funcs dest
  = Tuple_encode_loop vs to_rb_funcs dest.
Proof.
  revert to_rb_funcs dest; induction vs as [|v vs IH]; intros [|conv funcs] dest Hlen;
    try discriminate Hlen.
  - destruct extra; reflexivity.
  - cbn [app Tuple_encode_loop].
    destruct (call_value_dest conv v dest) as [d|e]; cbn [bind]; [|reflexivity].
    apply IH. injection Hlen as Hlen. exact Hlen.
Qed.

Lemma Tuple_encode_loop_missing (to_rb_funcs more : list encoder) (vs : list object)
    (dest : bytes) :
  List.length vs = List.length to_rb_funcs ->
  Tuple_encode_loop vs (to_rb_funcs ++ more) dest
  = Tuple_encode_loop vs to_rb_funcs dest.
Proof.
  revert to_rb_funcs dest; induction vs as [|v vs IH]; intros [|conv funcs] dest Hlen;
    try discriminate Hlen.
  - destruct more; reflexivity.
  - cbn [app Tuple_encode_loop].
    destruct (call_value_dest conv v dest) as [d|e]; cbn [bind]; [|reflexivity].
    apply IH. injection Hlen as Hlen. exact Hlen.
Qed.

(** [Tuple._to_row_binary] does not check the arity: [zip] stops at the
    shorter side, so values beyond the declared element types are dropped
    without an error, and element types beyond the values given are left
    unencoded without an error. *)
Theorem Tuple_to_row_binary_zip_truncates
    (to_rb_funcs more : list encoder) (vs extra : list object) (dest : bytes) :
  List.length vs = List.length to_rb_funcs ->
  Tuple__to_row_binary to_rb_funcs (VTuple (vs ++ extra)) dest
    = Tuple__to_row_binary to_rb_funcs (VTuple vs) dest /\
  Tuple__to_row_binary (to_rb_funcs ++ more) (VTuple vs) dest
    = Tuple__to_row_binary to_rb_funcs (VTuple vs) dest.
Proof.
  intros Hlen. unfold Tuple__to_row_binary. cbn [py_iter bind]. split.
  - apply Tuple_encode_loop_extra. exact Hlen.
  - apply Tuple_encode_loop_missing. exact Hlen.
Qed.

Lemma Tuple_to_row_binary_zip_truncates_witness :
  List.length [VUUID (mkUUID 1 unknown)] = List.length [def_value_dest UUID__to_row_binary] /\
  Tuple__to_row_binary [def_value_dest UUID__to_row_binary]
                       (VTuple ([VUUID (mkUUID 1 unknown)] ++ [VInt 7])) []
  = Tuple__to_row_binary [def_value_dest UUID__to_row_binary]
                         (VTuple [VUUID (mkUUID 1 unknown)]) [].
Proof.
  assert (H : List.length [VUUID (mkUUID 1 unknown)]
              = List.length [def_value_dest UUID__to_row_binary]) by reflexivity.
  exact (conj H (proj1 (Tuple_to_row_binary_zip_truncates
                          [def_value_dest UUID__to_row_binary] []
                          [VUUID (mkUUID 1 unknown)] [VInt 7] [] H))).
Defined.

Lemma Tuple_decode_loop_length (from_rb_funcs : list decoder) (source : bytes)
    (loc : Z) (vs : list object) (loc' : Z) :
  Tuple_decode_loop from_rb_funcs source loc = Ok (vs, loc') ->
  List.length vs = List.length from_rb_funcs.
Proof.
  revert loc vs loc'; induction from_rb_funcs as [|conv rest IH]; intros loc vs loc' H;
    cbn [Tuple_decode_loop] in H.
  - injection H as <- _. reflexivity.
  - destruct (call_source_loc conv source loc) as [[v l1]|]; cbn [bind] in H;
      [|discriminate].
    destruct (Tuple_decode_loop rest source l1) as [[vs1 l2]|] eqn:E; cbn [bind] in H;
      [|discriminate].
    injection H as <- _. cbn [List.length]. f_equal. apply (IH _ _ _ E).
Qed.

(** When [Tuple._from_row_binary] returns, it returns a tuple with one value
    for each declared element type. *)
Theorem Tuple_from_row_binary_arity (from_rb_funcs : list decoder) (source : bytes)
    (loc : Z) (v : object) (loc' : Z) :
  Tuple__from_row_binary from_rb_funcs source loc = Ok (v, loc') ->
  exists vs, v = VTuple vs /\ List.length vs = List.length from_rb_funcs.
Proof.
  unfold Tuple__from_row_binary. intros H.
  destruct (Tuple_decode_loop from_rb_funcs source loc) as [[vs l]|] eqn:E;
    cbn [bind] in H; [|discriminate].
  injection H as <- _. exists vs. split; [reflexivity|].
  apply (Tuple_decode_loop_length _ _ _ _ _ E).
Qed.

Lemma Tuple_from_row_binary_arity_witness :
  exists vs,
    VTuple [VUUID (mkUUID 0x00112233445566778899aabbccddeeff unknown)] = VTuple vs /\
    List.length vs = List.length [def_source_loc UUID__from_row_binary].
Proof.
  apply (Tuple_from_row_binary_arity [def_source_loc UUID__from_row_binary]
           (uuid_wire uuid_example) 0 _ 16).
  vm_compute. reflexivity.
Defined.

(** The first sub-codec that raises ends the decode of a tuple, and its
    exception is the one that leaves [Tuple._from_row_binary]. *)
Theorem Tuple_from_row_binary_propagates
    (before after : list decoder) (conv : decoder) (source : bytes)
    (loc : Z) (vs : list object) (l : Z) (e : exn) :
  Tuple_decode_loop before source loc = Ok (vs, l) ->
  call_source_loc conv source l = Raise e ->
  Tuple__from_row_binary (before ++ conv :: after) source loc = Raise e.
Proof.
  intros Hb He. unfold Tuple__from_row_binary.
  assert (H : Tuple_decode_loop (before ++ conv :: after) source loc = Raise e).
  { revert loc vs l Hb He. induction before as [|c before IH]; intros loc vs l Hb He.
    - cbn in Hb. injection Hb as _ <-. cbn [app Tuple_decode_loop].
      rewrite He. reflexivity.
    - cbn [app Tuple_decode_loop] in Hb |- *.
      destruct (call_source_loc c source loc) as [[v l1]|]; cbn [bind] in Hb |- *;
        [|discriminate].
      destruct (Tuple_decode_loop before source l1) as [[vs1 l2]|] eqn:E;
        cbn [bind] in Hb; [|discriminate].
      injection Hb as _ <-. rewrite (IH l1 vs1 l2 E He). reflexivity. }
  rewrite H. reflexivity.
Qed.

Lemma Tuple_from_row_binary_propagates_witness :
  Tuple_decode_loop [def_source_loc UUID__from_row_binary] [] 0
    = Ok ([VUUID (mkUUID 0 unknown)], 16) /\
  call_source_loc (def_source_loc AggregateFunction__from_row_binary) [] 16
    = Raise (NotSupportedError "Aggregate function deserialization not supported") /\
  Tuple__from_row_binary
    ([def_source_loc UUID__from_row_binary]
     ++ def_source_loc AggregateFunction__from_row_binary :: []) [] 0
  = Raise (NotSupportedError "Aggregate function deserialization not supported").
Proof.
  assert (H0 : Tuple_decode_loop [def_source_loc UUID__from_row_binary] [] 0
               = Ok ([VUUID (mkUUID 0 unknown)], 16)) by (vm_compute; reflexivity).
  assert (H1 : call_source_loc (def_source_loc AggregateFunction__from_row_binary) [] 16
               = Raise (NotSupportedError "Aggregate function deserialization not supported"))
    by reflexivity.
  exact (conj H0 (conj H1
           (Tuple_from_row_binary_propagates [def_source_loc UUID__from_row_binary] []
              (def_source_loc AggregateFunction__from_row_binary) [] 0 _ 16 _ H0 H1))).
Defined.

(* ================================================================== *)
(** ** Array: further properties                                        *)
(* ================================================================== *)

Lemma Array_decode_loop_length (conv : decoder) (n : nat) (source : bytes) (loc : Z)
    (vs : list object) (loc' : Z) :
  Array_decode_loop conv n source loc = Ok (vs, loc') -> List.length vs = n.
Proof.
  revert loc vs loc'; induction n as [|n IH]; intros loc vs loc' H;
    cbn [Array_decode_loop] in H.
  - injection H as <- _. reflexivity.
  - destruct (call_source_loc conv source loc) as [[v l1]|]; cbn [bind] in H;
      [|discriminate].
    destruct (Array_decode_loop conv n source l1) as [[vs1 l2]|] eqn:E; cbn [bind] in H;
      [|discriminate].
    injection H as <- _. cbn [List.length]. f_equal. apply (IH _ _ _ E).
Qed.

(** Once the length prefix is read, [Array._from_row_binary] returns, when
    it returns, a list of exactly that many elements; and a prefix of zero
    gives the empty list at the position after the prefix without a call of
    the element codec, so that an empty array decodes over any element type,
    one that cannot be decoded included. *)
Theorem Array_from_row_binary_count
    (read_leb128 : bytes -> Z -> result (Z * Z)) (conv : decoder)
    (source : bytes) (loc size l : Z) :
  read_leb128 source loc = Ok (size, l) ->
  (size <= 0 ->
   Array__from_row_binary read_leb128 conv source loc = Ok (VList [], l)) /\
  (forall v loc',
     Array__from_row_binary read_leb128 conv source loc = Ok (v, loc') ->
     exists vs, v = VList vs /\ List.length vs = Z.to_nat size).
Proof.
  intros Hread. unfold Array__from_row_binary. rewrite Hread. cbn [bind]. split.
  - intros Hs. replace (Z.to_nat size) with O by lia. reflexivity.
  - intros v loc' H.
    destruct (Array_decode_loop conv (Z.to_nat size) source l) as [[vs l']|] eqn:E;
      cbn [bind] in H; [|discriminate].
    injection H as <- _. exists vs. split; [reflexivity|].
    apply (Array_decode_loop_length _ _ _ _ _ _ E).
Qed.

Lemma Array_from_row_binary_count_witness :
  example_read_leb128 [x00] 0 = Ok (0, 1) /\ 0 <= 0 /\
  Array__from_row_binary example_read_leb128
    (def_source_loc AggregateFunction__from_row_binary) [x00] 0
  = Ok (VList [], 1).
Proof.
  assert (H0 : example_read_leb128 [x00] 0 = Ok (0, 1)) by (vm_compute; reflexivity).
  assert (H1 : 0 <= 0) by lia.
  exact (conj H0 (conj H1
           (proj1 (Array_from_row_binary_count example_read_leb128
                     (def_source_loc AggregateFunction__from_row_binary)
                     [x00] 0 0 1 H0) H1))).
Defined.

Lemma chunks_full (n : nat) (b : bytes) :
  List.length b = (n * 8)%nat ->
  Forall (fun c => len c = 8) (chunks n 8 b).
Proof.
  revert b; induction n as [|n IH]; intros b Hb; cbn [chunks]; constructor.
  - unfold len. rewrite length_firstn. lia.
  - apply IH. rewrite length_skipn. lia.
Qed.

(** The offsets column is little-endian on the wire: a big-endian host that
    asks for the byte swap reads the same offsets as a little-endian host
    that does not, on every buffer. *)
Theorem Array_offsets_byte_order (source : bytes) (loc num_rows : Z) :
  Array_offsets big source loc num_rows true
  = Array_offsets little source loc num_rows false.
Proof.
  unfold Array_offsets, array_Q_frombytes. cbv zeta.
  set (b := slice source loc (loc + num_rows * 8)).
  destruct (len b mod 8 =? 0) eqn:E; [|reflexivity]. cbn [bind]. f_equal.
  assert (Hb : List.length b = ((List.length b / 8) * 8)%nat).
  { apply Z.eqb_eq in E. unfold len in E.
    pose proof (Nat.div_mod_eq (List.length b) 8) as Hd.
    assert (Hm : (List.length b mod 8 = 0)%nat).
    { apply Nat2Z.inj. rewrite Nat2Z.inj_mod. exact E. }
    lia. }
  pose proof (chunks_full _ _ Hb) as Hfull.
  rewrite map_map. apply map_ext_in. intros c Hc.
  rewrite Forall_forall in Hfull.
  apply (byteswap64_int_from_bytes big c (Hfull c Hc)).
Qed.

(** A buffer that ends inside the offsets column: when the bytes left from
    [loc] on are not a whole number of 64-bit words, [Array.from_native]
    raises ValueError; when they are, it reads the words that are there,
    fewer than [num_rows], without an error. *)
Theorem Array_offsets_truncated (host : byteorder) (source : bytes)
    (loc num_rows : Z) (must_swap : bool)
    (conv : bytes -> Z -> Z -> bool -> result (object * Z))
    (conv_py : option (object -> result object)) :
  0 <= loc <= len source -> len source < loc + 8 * num_rows ->
  ((len source - loc) mod 8 <> 0 ->
   Array_from_native host conv conv_py source loc num_rows must_swap
   = Raise ValueError) /\
  ((len source - loc) mod 8 = 0 ->
   exists offsets,
     Array_offsets host source loc num_rows must_swap = Ok offsets /\
     len offsets = (len source - loc) / 8 /\ len offsets < num_rows).
Proof.
  intros Hloc Hshort.
  assert (Hl : len (slice source loc (loc + num_rows * 8)) = len source - loc).
  { rewrite slice_past_end by lia. lia. }
  unfold Array_from_native, Array_offsets, array_Q_frombytes. cbv zeta.
  rewrite Hl. split; intros Hm.
  - apply Z.eqb_neq in Hm. rewrite Hm. reflexivity.
  - rewrite Hm. cbn [Z.eqb bind]. eexists. split; [reflexivity|].
    assert (Hc : forall n b, List.length (chunks n 8 b) = n)
      by (induction n; intros; cbn [chunks List.length]; auto).
    assert (Hlen : len (if must_swap
                        then map byteswap64
                               (map (int_from_bytes host)
                                  (chunks (List.length (slice source loc (loc + num_rows * 8)) / 8)
                                          8 (slice source loc (loc + num_rows * 8))))
                        else map (int_from_bytes host)
                               (chunks (List.length (slice source loc (loc + num_rows * 8)) / 8)
                                       8 (slice source loc (loc + num_rows * 8))))
                   = (len source - loc) / 8).
    { assert (Hq : Z.of_nat (List.length (slice source loc (loc + num_rows * 8)) / 8)
                   = (len source - loc) / 8).
      { rewrite Nat2Z.inj_div. unfold len in Hl. rewrite Hl. reflexivity. }
      destruct must_swap; unfold len; rewrite ?length_map, Hc; exact Hq. }
    split; [exact Hlen|]. rewrite Hlen.
    apply Z.div_lt_upper_bound; lia.
Qed.

Lemma Array_offsets_truncated_witness :
  0 <= 0 <= len [x01; x00; x00] /\ len [x01; x00; x00] < 0 + 8 * 1 /\
  (len [x01; x00; x00] - 0) mod 8 <> 0 /\
  Array_from_native little UUID_from_native None [x01; x00; x00] 0 1 false
  = Raise ValueError.
Proof.
  assert (H0 : 0 <= 0 <= len [x01; x00; x00]) by (vm_compute; split; discriminate).
  assert (H1 : len [x01; x00; x00] < 0 + 8 * 1) by (vm_compute; reflexivity).
  assert (H2 : (len [x01; x00; x00] - 0) mod 8 <> 0) by (vm_compute; discriminate).
  exact (conj H0 (conj H1 (conj H2
           (proj1 (Array_offsets_truncated little [x01; x00; x00] 0 1 false
                     UUID_from_native None H0 H1) H2)))).
Defined.

Lemma last_cons {A} (x : A) (l : list A) (d : A) :
  List.last (x :: l) d = List.last l x.
Proof.
  destruct l as [|y l]; [reflexivity|].
  change (List.last (y :: l) d = List.last (y :: l) x). apply last_nonempty.
Qed.

Lemma nondecreasing_last (last : Z) (offsets : list Z) :
  nondecreasing last offsets = true -> last <= List.last offsets last.
Proof.
  revert last; induction offsets as [|o r IH]; intros last H.
  - cbn. lia.
  - cbn [nondecreasing] in H. apply andb_prop in H. destruct H as [H1 H2].
    rewrite last_cons. specialize (IH o H2). lia.
Qed.

Lemma Array_native_loop_fixed_width
    (conv : bytes -> Z -> Z -> bool -> result (object * Z))
    (source : bytes) (must_swap : bool) (w : Z) :
  (forall l cnt, 0 <= l -> 0 <= cnt -> l + w * cnt <= len source ->
     exists row, conv source l cnt must_swap = Ok (row, l + w * cnt)) ->
  0 <= w ->
  forall offsets last l,
    nondecreasing last offsets = true -> 0 <= l ->
    l + w * (List.last offsets last - last) <= len source ->
    exists column,
      Array_native_loop conv None source must_swap offsets last l
        = Ok (column, l + w * (List.last offsets last - last)) /\
      List.length column = List.length offsets.
Proof.
  intros Hconv Hw. induction offsets as [|o r IH]; intros last l Hnd Hl Hlen.
  - exists []. cbn. split; [do 2 f_equal; lia | reflexivity].
  - cbn [nondecreasing] in Hnd. apply andb_prop in Hnd. destruct Hnd as [H1 H2].
    rewrite last_cons in Hlen |- *.
    pose proof (nondecreasing_last o r H2) as Hlast.
    destruct (Hconv l (o - last)) as [row Hrow]; [lia | lia | nia |].
    destruct (IH o (l + w * (o - last)) H2) as (column & Hcol & Hn); [nia | nia |].
    exists (row :: column). cbn [Array_native_loop]. rewrite Hrow. cbn [bind].
    rewrite Hcol. cbn [bind List.length]. split; [do 2 f_equal; lia | lia].
Qed.

(** Over an element codec that takes [w] bytes for each element, a bulk
    decode of arrays whose offsets never decrease consumes the offsets column
    and [w] bytes for each of the [offset[-1]] elements, no more and no less,
    and returns one row for each offset. *)
Theorem Array_from_native_fixed_width
    (host : byteorder)
    (conv : bytes -> Z -> Z -> bool -> result (object * Z))
    (source : bytes) (loc num_rows : Z) (must_swap : bool)
    (w : Z) (offsets : list Z) :
  (forall l cnt, 0 <= l -> 0 <= cnt -> l + w * cnt <= len source ->
     exists row, conv source l cnt must_swap = Ok (row, l + w * cnt)) ->
  0 <= w -> 0 <= loc -> 0 <= num_rows ->
  Array_offsets host source loc num_rows must_swap = Ok offsets ->
  nondecreasing 0 offsets = true ->
  loc + 8 * num_rows + w * List.last offsets 0 <= len source ->
  exists column,
    Array_from_native host conv None source loc num_rows must_swap
      = Ok (VList column, loc + 8 * num_rows + w * List.last offsets 0) /\
    len column = num_rows.
Proof.
  intros Hconv Hw Hloc Hn Hoff Hnd Hlen.
  pose proof (nondecreasing_last 0 offsets Hnd) as Hlast.
  assert (Hfit : loc + 8 * num_rows <= len source) by nia.
  pose proof (Array_offsets_value host source loc num_rows must_swap Hloc Hn Hfit) as Hval.
  rewrite Hoff in Hval. injection Hval as Hval.
  destruct (Array_native_loop_fixed_width conv source must_swap w Hconv Hw
              offsets 0 (loc + num_rows * 8) Hnd)
    as (column & Hcol & Hcount); [lia | rewrite Z.sub_0_r; lia |].
  exists column. unfold Array_from_native. rewrite Hoff. cbn [bind].
  rewrite Hcol. cbn [bind]. split.
  - do 2 f_equal. lia.
  - unfold len. rewrite Hcount, Hval, length_map, range_length. lia.
Qed.

Lemma UUID_from_native_fixed_width (source : bytes) (must_swap : bool) :
  forall l cnt, 0 <= l -> 0 <= cnt -> l + 16 * cnt <= len source ->
    exists row, UUID_from_native source l cnt must_swap = Ok (row, l + 16 * cnt).
Proof.
  intros l cnt Hl Hc Hlen. eexists. apply UUID_from_native_value; assumption.
Qed.

Lemma Array_from_native_fixed_width_witness :
  0 <= 16 /\ 0 <= 0 /\ 0 <= 3 /\
  Array_offsets little array_uuid_example 0 3 false = Ok [1; 1; 2] /\
  nondecreasing 0 [1; 1; 2] = true /\
  0 + 8 * 3 + 16 * List.last [1; 1; 2] 0 <= len array_uuid_example /\
  exists column,
    Array_from_native little UUID_from_native None array_uuid_example 0 3 false
      = Ok (VList column, 0 + 8 * 3 + 16 * List.last [1; 1; 2] 0) /\
    len column = 3.
Proof.
  assert (H0 : 0 <= 16) by lia.
  assert (H1 : 0 <= 0) by lia.
  assert (H2 : 0 <= 3) by lia.
  assert (H3 : Array_offsets little array_uuid_example 0 3 false = Ok [1; 1; 2])
    by (vm_compute; reflexivity).
  assert (H4 : nondecreasing 0 [1; 1; 2] = true) by reflexivity.
  assert (H5 : 0 + 8 * 3 + 16 * List.last [1; 1; 2] 0 <= len array_uuid_example)
    by (vm_compute; discriminate).
  exact (conj H0 (conj H1 (conj H2 (conj H3 (conj H4 (conj H5
           (Array_from_native_fixed_width little UUID_from_native array_uuid_example
              0 3 false 16 [1; 1; 2]
              (UUID_from_native_fixed_width array_uuid_example false)
              H0 H1 H2 H3 H4 H5))))))).
Defined.

(** The column of the example, decoded. *)
Example Array_from_native_uuid_example :
  Array_from_native little UUID_from_native None array_uuid_example 0 3 false
  = Ok (VList [VList [VUUID (mkUUID 0x00112233445566778899aabbccddeeff unsafe)];
               VList [];
               VList [VUUID (mkUUID 0x00112233445566778899aabbccddeeff unsafe)]],
        56).
Proof. vm_compute. reflexivity. Qed.

(* ================================================================== *)
(** ** Map: further properties                                          *)
(* ================================================================== *)








(** A key that cannot be hashed ends the decode of a mapping: when the first
    key decodes to a list or to a mapping, as the keys of a
    [Map(Array(...), ...)] do, [Map._from_row_binary] raises TypeError. *)
Theorem Map_from_row_binary_unhashable_key
    (read_leb128 : bytes -> Z -> result (Z * Z)) (key_from_rb value_from_rb : decoder)
    (source : bytes) (loc size l l1 l2 : Z) (key value : object) :
  read_leb128 source loc = Ok (size, l) ->
  0 < size ->
  call_source_loc key_from_rb source l = Ok (key, l1) ->
  call_source_loc value_from_rb source l1 = Ok (value, l2) ->
  hashable key = false ->
  Map__from_row_binary read_leb128 key_from_rb value_from_rb source loc
  = Raise TypeError.
Proof.
  intros Hread Hsize Hk Hv Hh. unfold Map__from_row_binary. rewrite Hread.
  cbn [bind]. cbv zeta.
  destruct (Z.to_nat size) as [|n] eqn:E; [lia|].
  cbn [Map_decode_loop]. rewrite Hk. cbn [bind]. rewrite Hv. cbn [bind].
  unfold dict_setitem. rewrite Hh. reflexivity.
Qed.

Lemma Map_from_row_binary_unhashable_key_witness :
  example_read_leb128 [x01; x00; x07] 0 = Ok (1, 1) /\ 0 < 1 /\
  call_source_loc
    (def_source_loc (Array__from_row_binary example_read_leb128 one_byte_from_row_binary))
    [x01; x00; x07] 1 = Ok (VList [], 2) /\
  call_source_loc one_byte_from_row_binary [x01; x00; x07] 2 = Ok (VInt 7, 3) /\
  hashable (VList []) = false /\
  Map__from_row_binary example_read_leb128
    (def_source_loc (Array__from_row_binary example_read_leb128 one_byte_from_row_binary))
    one_byte_from_row_binary [x01; x00; x07] 0
  = Raise TypeError.
Proof.
  assert (H0 : example_read_leb128 [x01; x00; x07] 0 = Ok (1, 1))
    by (vm_compute; reflexivity).
  assert (H1 : 0 < 1) by lia.
  assert (H2 : call_source_loc
                 (def_source_loc (Array__from_row_binary example_read_leb128
                                    one_byte_from_row_binary))
                 [x01; x00; x07] 1 = Ok (VList [], 2)) by (vm_compute; reflexivity).
  assert (H3 : call_source_loc one_byte_from_row_binary [x01; x00; x07] 2
               = Ok (VInt 7, 3)) by (vm_compute; reflexivity).
  assert (H4 : hashable (VList []) = false) by reflexivity.
  exact (conj H0 (conj H1 (conj H2 (conj H3 (conj H4
           (Map_from_row_binary_unhashable_key example_read_leb128
              (def_source_loc (Array__from_row_binary example_read_leb128
                                 one_byte_from_row_binary))
              one_byte_from_row_binary [x01; x00; x07] 0 1 1 2 3 _ _
              H0 H1 H2 H3 H4)))))).
Defined.

(* ================================================================== *)
(** ** Construction and the aggregate wrappers                          *)
(* ================================================================== *)

(** [Tuple.__init__] resolves one type for each declared name, in the
    declared order: it returns a tuple type exactly when every name
    resolves, and its element types are the resolved ones, place by place. *)
Theorem Tuple__init__resolves_in_order
    (get_from_name : string -> result ClickHouseType) (type_def : TypeDef)
    (t : ClickHouseType) :
  Tuple__init__ get_from_name type_def = Ok t
  <-> exists ts, t = Tuple ts /\
                 Forall2 (fun name e => get_from_name name = Ok e) (values type_def) ts.
Proof.
  unfold Tuple__init__.
  assert (H : forall names ts,
             resolve_all get_from_name names = Ok ts
             <-> Forall2 (fun name e => get_from_name name = Ok e) names ts).
  { induction names as [|name names IH]; intros ts; cbn [resolve_all].
    - split.
      + intros E. injection E as <-. constructor.
      + intros E. inversion E. reflexivity.
    - split.
      + intros E. destruct (get_from_name name) as [e|] eqn:En; cbn [bind] in E;
          [|discriminate].
        destruct (resolve_all get_from_name names) as [es|] eqn:Es; cbn [bind] in E;
          [|discriminate].
        injection E as <-. constructor; [exact En | apply IH; reflexivity].
      + intros E. inversion E as [|? e ? es En Es]; subst.
        rewrite En. cbn [bind]. apply IH in Es. rewrite Es. reflexivity. }
  split.
  - intros E. destruct (resolve_all get_from_name (values type_def)) as [ts|] eqn:Er;
      cbn [bind] in E; [|discriminate].
    injection E as <-. exists ts. split; [reflexivity | apply H; exact Er].
  - intros (ts & -> & F). apply H in F. rewrite F. reflexivity.
Qed.

Lemma underlying_decoder
    (read_leb128 : bytes -> Z -> result (Z * Z))
    (bytes_decode : string -> bytes -> result pystr)
    (cls : FixedString_class) (t : ClickHouseType) (source : bytes) (loc : Z) :
  decode_one read_leb128 bytes_decode cls t source loc
  = decode_one read_leb128 bytes_decode cls (underlying t) source loc.
Proof.
  induction t; try reflexivity. cbn [underlying]. rewrite <- IHt. reflexivity.
Qed.

(** [SimpleAggregateFunction] is transparent on decode and closed on encode:
    through any number of wrappers [decode_one] is the decode of the type
    underneath, while [encode_one(value, dest)] raises TypeError, and so does
    the call [to_row_binary(value)] when the type underneath is one whose
    encoder appends to a [dest]. *)
Theorem SimpleAggregateFunction_decodes_only
    (read_leb128 : bytes -> Z -> result (Z * Z)) (to_leb128 : Z -> bytes)
    (bytes_decode : string -> bytes -> result pystr)
    (str_encode : string -> pystr -> result bytes)
    (cls : FixedString_class) (t : ClickHouseType)
    (value : object) (source dest : bytes) (loc : Z) :
  decode_one read_leb128 bytes_decode cls (SimpleAggregateFunction t) source loc
    = decode_one read_leb128 bytes_decode cls (underlying t) source loc /\
  encode_one to_leb128 str_encode cls (SimpleAggregateFunction t) value dest
    = Raise TypeError /\
  match underlying t with
  | UUID | FixedString _ | Nothing | Array _ | Tuple _ =>
      call_value (to_row_binary to_leb128 str_encode cls (SimpleAggregateFunction t)) value
      = Raise TypeError
  | _ => True
  end.
Proof.
  split; [apply (underlying_decoder _ _ _ (SimpleAggregateFunction t))|].
  split; [reflexivity|].
  assert (H : call_value (to_row_binary to_leb128 str_encode cls
                            (SimpleAggregateFunction t)) value
              = call_value (to_row_binary to_leb128 str_encode cls (underlying t)) value).
  { induction t; try reflexivity. cbn [underlying]. rewrite <- IHt. reflexivity. }
  rewrite H. destruct (underlying t); try exact I; reflexivity.
Qed.

(* ================================================================== *)
(** ** UUID: what a short buffer decodes to                             *)
(* ================================================================== *)

Lemma firstn_skipn_clamp {A} (l : list A) (a b : nat) :
  firstn (b - a) (skipn a l)
  = firstn (Nat.min b (List.length l) - Nat.min a (List.length l))
           (skipn (Nat.min a (List.length l)) l).
Proof.
  destruct (Nat.le_gt_cases (List.length l) a) as [Ha|Ha].
  - rewrite (Nat.min_r a) by lia. rewrite !skipn_all2 by lia. rewrite !firstn_nil.
    reflexivity.
  - rewrite (Nat.min_l a) by lia.
    destruct (Nat.le_gt_cases (List.length l) b) as [Hb|Hb].
    + rewrite (Nat.min_r b) by lia.
      rewrite !firstn_all2 by (rewrite length_skipn; lia). reflexivity.
    + rewrite (Nat.min_l b) by lia. reflexivity.
Qed.

Lemma Forall_firstn_skipn {A} (P : A -> Prop) (l : list A) (n k : nat) :
  Forall P l -> Forall P (firstn n (skipn k l)).
Proof.
  intros H. apply Forall_forall. intros x Hx. rewrite Forall_forall in H. apply H.
  assert (Hin : forall (m : list A) q y, In y (firstn q m) -> In y m).
  { induction m as [|z m IH]; intros [|q] y Hy; cbn in Hy; try contradiction.
    destruct Hy as [->|Hy]; [left; reflexivity | right; apply (IH q); exact Hy]. }
  assert (Hsk : forall (m : list A) q y, In y (skipn q m) -> In y m).
  { induction m as [|z m IH]; intros [|q] y Hy; cbn in Hy; try contradiction;
      try exact Hy. right. apply (IH q). exact Hy. }
  apply (Hsk l k). apply (Hin _ n). exact Hx.
Qed.

(** A slice of a buffer with bytes added at its end is the slice of the
    buffer, followed by some of the added bytes. *)
Lemma slice_app (l z : bytes) (i j : Z) (P : byte -> Prop) :
  0 <= i -> 0 <= j -> Forall P z ->
  exists z', slice (l ++ z) i j = slice l i j ++ z' /\ Forall P z'.
Proof.
  intros Hi Hj Hz. rewrite !slice_inside by lia. rewrite len_app.
  set (n := List.length l). set (m := List.length z).
  set (a := Z.to_nat (Z.min i (len l + len z))).
  set (b := Z.to_nat (Z.min j (len l + len z))).
  replace (Z.to_nat (Z.min j (len l + len z) - Z.min i (len l + len z)))
    with (b - a)%nat by (subst a b; lia).
  replace (Z.to_nat (Z.min j (len l) - Z.min i (len l)))
    with (Nat.min b n - Nat.min a n)%nat by (subst a b n; unfold len; lia).
  replace (Z.to_nat (Z.min i (len l))) with (Nat.min a n)
    by (subst a n; unfold len; lia).
  rewrite skipn_app, firstn_app. fold n.
  rewrite firstn_skipn_clamp. fold n.
  eexists. split; [reflexivity|].
  apply Forall_firstn_skipn. exact Hz.
Qed.

Lemma int_from_bytes_little_zeros (b z : bytes) :
  Forall (fun x => x = x00) z ->
  int_from_bytes_little (b ++ z) = int_from_bytes_little b.
Proof.
  intros Hz. rewrite int_from_bytes_little_app.
  assert (E : int_from_bytes_little z = 0).
  { induction Hz as [|x z Hx _ IH]; [reflexivity|].
    cbn [int_from_bytes_little]. rewrite IH, Hx. reflexivity. }
  rewrite E. lia.
Qed.

Lemma word64_at_padded (source : bytes) (k : nat) (p : Z) :
  0 <= p -> word64_at (source ++ repeat x00 k) p = word64_at source p.
Proof.
  intros Hp. unfold word64_at.
  destruct (slice_app source (repeat x00 k) p (p + 8) (fun x => x = x00))
    as (z' & E & Hz'); [lia | lia | |].
  - apply Forall_forall. intros x Hx. apply repeat_spec in Hx. exact Hx.
  - rewrite E. apply int_from_bytes_little_zeros. exact Hz'.
Qed.

(** The bytes that a buffer lacks are read as zeros: at a position that is
    not negative, [UUID._from_row_binary] returns on a buffer what it returns
    on the same buffer with zero bytes added at its end. *)
Theorem UUID_row_decode_zero_padded (source : bytes) (k : nat) (loc : Z) :
  0 <= loc ->
  UUID__from_row_binary (source ++ repeat x00 k) loc
  = UUID__from_row_binary source loc.
Proof.
  intros Hloc. rewrite !UUID__from_row_binary_value.
  rewrite !word64_at_padded by lia. reflexivity.
Qed.

Lemma UUID_row_decode_zero_padded_witness :
  0 <= 0 /\
  UUID__from_row_binary ([x01; x02] ++ repeat x00 14) 0
  = UUID__from_row_binary [x01; x02] 0.
Proof.
  assert (H : 0 <= 0) by lia.
  exact (conj H (UUID_row_decode_zero_padded [x01; x02] 14 0 H)).
Defined.
